(** * semifractal: a wedge of a 1-d cellular automaton rotated into a square

    A shallow embedding of [semifractal.py] (Python 2): the rules, the row
    generator, the seed normalisation, the grid buffer and the assembly of
    the grid, followed by the properties proved of them.

    Python integers are unbounded, so they are [Z]; a Python list is a
    [list], read and written through the interpreter's index rules (a
    negative index counts from the end, an index outside the list raises
    [IndexError]); a byte string is a [string]; an exception is the left
    injection of a sum.  The two process-wide effects the program uses, the
    shared random source of module [random] and the clock of module [time],
    are the two fields of an explicit [world]. *)

From Stdlib Require Import ZArith Lia String Ascii List Bool QArith.
From Stdlib Require Import DecimalString.
From stdpp Require Import base list.

Local Open Scope Z_scope.

(** ** The Python runtime the program relies on *)

Module Py.

(** The exceptions the modelled code can raise. *)
Inductive exn : Set :=
| IndexError   (* list index out of range *)
| ValueError.  (* invalid literal for int() *)

Definition result (A : Type) : Type := (exn + A)%type.

Definition bind {A B} (r : result A) (k : A -> result B) : result B :=
  match r with
  | inl e => inl e
  | inr a => k a
  end.

(** [l[i]] and [l[i] = v]: a negative index is taken from the end once,
    and whatever is then outside [0, len) raises. *)
Definition norm_index (len : nat) (i : Z) : option nat :=
  let j := if i <? 0 then i + Z.of_nat len else i in
  if (0 <=? j) && (j <? Z.of_nat len) then Some (Z.to_nat j) else None.

Definition getitem {A} (l : list A) (i : Z) : result A :=
  match norm_index (length l) i with
  | Some k =>
      match l !! k with
      | Some v => inr v
      | None => inl IndexError
      end
  | None => inl IndexError
  end.

Definition setitem {A} (l : list A) (i : Z) (v : A) : result (list A) :=
  match norm_index (length l) i with
  | Some k => inr (<[k:=v]> l)
  | None => inl IndexError
  end.

(** [l[start:stop]] for non-negative bounds; the interpreter clamps both
    to the length, which [take] and [drop] do as well. *)
Definition slice {A} (l : list A) (start stop : nat) : list A :=
  take (stop - start) (drop start l).

(** [ord(c)] of a byte and [str(k)] of a non-negative integer. *)
Definition ord (c : ascii) : Z := Z.of_N (N_of_ascii c).

Definition str (k : Z) : string :=
  NilZero.string_of_uint (N.to_uint (Z.to_N k)).

(** [''.join(parts)]. *)
Definition join (parts : list string) : string :=
  fold_right String.append EmptyString parts.

(** [int(s)] in base 10: surrounding white space is dropped, one sign is
    allowed, and what remains must be a non-empty run of digits.  The
    program only ever passes it a run of digits, possibly empty. *)
Definition is_space (c : ascii) : bool :=
  let k := ord c in ((9 <=? k) && (k <=? 13)) || (k =? 32).

Fixpoint lstrip (s : string) : string :=
  match s with
  | String c r => if is_space c then lstrip r else s
  | EmptyString => EmptyString
  end.

Fixpoint rstrip (s : string) : string :=
  match s with
  | String c r =>
      match rstrip r with
      | EmptyString => if is_space c then EmptyString else String c EmptyString
      | r' => String c r'
      end
  | EmptyString => EmptyString
  end.

Definition digit (c : ascii) : option Z :=
  let k := ord c in
  if (48 <=? k) && (k <=? 57) then Some (k - 48) else None.

Fixpoint digits (acc : Z) (s : string) : option Z :=
  match s with
  | EmptyString => Some acc
  | String c r =>
      match digit c with
      | Some d => digits (acc * 10 + d) r
      | None => None
      end
  end.

Definition unsigned (s : string) : result Z :=
  match s with
  | EmptyString => inl ValueError
  | _ => match digits 0 s with
         | Some v => inr v
         | None => inl ValueError
         end
  end.

Definition int (s : string) : result Z :=
  match rstrip (lstrip s) with
  | String "-"%char r => bind (unsigned r) (fun v => inr (- v))
  | String "+"%char r => unsigned r
  | t => unsigned t
  end.

End Py.

(** ** The shared random source and the clock *)

(** Module [random] is not part of the program: its generator is an
    interface.  [rng_seed a] is the state [random.seed(a)] installs, which
    does not depend on the state before; [rng_randint a b] is
    [random.randint(a, b)], an integer of the closed range [a .. b]. *)
Class RandomSource : Type := {
  rng : Type;
  rng_seed : Z -> rng;
  rng_randint : Z -> Z -> rng -> Z * rng;
  rng_randint_range : forall a b r,
    a <= b -> a <= fst (rng_randint a b r) <= b
}.

Section Program.

Context {RS : RandomSource}.

(** The state of the process outside the program's own objects:
    [rand] is the state of the shared random source, [clock] is what
    [str(time.time())] evaluates to. *)
Record world : Type := World { rand : rng; clock : string }.

(** Computations that may read and write the world and may raise. *)
Definition M (A : Type) : Type := world -> Py.result A * world.

Definition ret {A} (a : A) : M A := fun w => (inr a, w).

Definition mbind {A B} (m : M A) (k : A -> M B) : M B :=
  fun w =>
    match m w with
    | (inr a, w') => k a w'
    | (inl e, w') => (inl e, w')
    end.

Definition lift {A} (r : Py.result A) : M A := fun w => (r, w).

(** [random.seed(a)] and [time.time()] seen through [str]. *)
Definition random_seed (a : Z) : M unit :=
  fun w => (inr tt, {| rand := rng_seed a; clock := clock w |}).

Definition time_str : M string := fun w => (inr (clock w), w).

End Program.

Declare Scope py_scope.
Delimit Scope py_scope with py.
Notation "x <- m ;; k" := (mbind m (fun x => k))
  (at level 100, m at next level, right associativity) : py_scope.
Notation "m ;;; k" := (mbind m (fun _ => k))
  (at level 100, right associativity) : py_scope.

Local Open Scope py_scope.

(** A rule decides a cell from the three cells above it; the only state a
    rule may use is the shared random source. *)
Definition Rule {RS : RandomSource} : Type := list bool -> rng -> bool * rng.

(** Calling a rule as a step of a computation. *)
Definition call_rule {RS : RandomSource} (rule : Rule) (above : list bool)
  : M bool :=
  fun w =>
    let (b, r) := rule above (rand w) in
    (inr b, {| rand := r; clock := clock w |}).

(** ** class Rules *)

Module Rules.
Section Rules.

Context {RS : RandomSource}.

Definition rule150Black : list (list bool) :=
  [ [true; false; false];
    [false; true; false];
    [false; false; true];
    [true; true; true] ].

(** [above in Rules.rule150Black]: comparison with [==], entry by entry. *)
Definition black (above : list bool) : bool :=
  existsb (fun entry => bool_decide (above = entry)) rule150Black.

Definition rule150 : Rule := fun above r => (black above, r).

(** What [rule150randomized] answers once [random.randint(0, 2000)] has
    returned [draw]. *)
Definition randomized_result (above : list bool) (draw : Z) : bool :=
  if black above then negb (draw =? 0) else false.

Definition rule150randomized : Rule :=
  fun above r =>
    if black above then
      let (draw, r') := rng_randint 0 2000 r in (negb (draw =? 0), r')
    else (false, r).

End Rules.
End Rules.

(** ** class Grid *)

Module Grid.

Record t : Type := Make {
  width : Z;
  height : Z;
  center : Z * Z;
  seed : option Z;
  array : list (list bool)
}.

(** [Grid(x, y, seed)]: [xrange] of a negative number is empty, and [/]
    on two integers is the floor division of Python 2. *)
Definition init (x y : Z) (seed : option Z) : t :=
  {| width := x;
     height := y;
     center := (x / 2, y / 2);
     seed := seed;
     array := replicate (Z.to_nat y) (replicate (Z.to_nat x) false) |}.

(** [self.array[y][x]] *)
Definition get (self : t) (x y : Z) : Py.result bool :=
  Py.bind (Py.getitem (array self) y) (fun row => Py.getitem row x).

(** [self.array[y][x] = value]: the row object found at [y] is updated
    in place; every row is a list of its own, so no other row changes. *)
Definition set (self : t) (x y : Z) (value : bool) : Py.result t :=
  Py.bind (Py.getitem (array self) y) (fun row =>
  Py.bind (Py.setitem row x value) (fun row' =>
  Py.bind (Py.setitem (array self) y row') (fun array' =>
  inr {| width := width self; height := height self;
         center := center self; seed := seed self;
         array := array' |}))).

(** [grid.seed = s] *)
Definition set_seed (self : t) (s : Z) : t :=
  {| width := width self; height := height self;
     center := center self; seed := Some s; array := array self |}.

End Grid.

(** ** class Generator *)

(** The value given as [seed]: [None], an [int] or [long], or a byte
    string (any other object is used through its [str] alone). *)
Inductive seed_value : Type :=
| SeedNone
| SeedInt (z : Z)
| SeedStr (s : string).

Module Generator.
Section Generator.

Context {RS : RandomSource}.

Record t : Type := Make { seed : seed_value; rule : Rule }.

(** [to_int = lambda item: int(''.join([str(ord(x)) for x in str(item)]))]
    applied to the string form of the item. *)
Definition to_int (item : string) : Py.result Z :=
  Py.int (Py.join (map (fun x => Py.str (Py.ord x)) (list_ascii_of_string item))).

Definition _generate_seed (self : t) (seed : seed_value) : M Z :=
  match seed with
  | SeedNone => now <- time_str ;; lift (to_int now)
  | SeedInt z => ret z
  | SeedStr s => lift (to_int s)
  end.

(** The generator [_above(row)]: the windows of width three of the row
    padded with two [False] on each side. *)
Definition _above (row : list bool) : list (list bool) :=
  let previous_row := [false; false] ++ row ++ [false; false] in
  map (fun i => Py.slice previous_row i (i + 3))
      (seq 0 (length previous_row - 2)).

(** [[self.rule(i) for i in _above(previous_row)]], the rule being called
    on the windows from left to right. *)
Fixpoint map_rule (rule : Rule) (windows : list (list bool))
  : M (list bool) :=
  match windows with
  | [] => ret []
  | above :: rest =>
      cell <- call_rule rule above ;;
      cells <- map_rule rule rest ;;
      ret (cell :: cells)
  end.

Definition _calculate_row (self : t) (previous_row : list bool)
  : M (list bool) :=
  map_rule (rule self) (_above previous_row).

(** The rows [generate(n)] yields, for an integer [n]: [[True]], then one
    row for each of the [n - 1] turns of [xrange(n - 1)]. *)
Fixpoint generate_loop (self : t) (turns : nat) (row : list bool)
  : M (list (list bool)) :=
  match turns with
  | O => ret []
  | S turns' =>
      row' <- _calculate_row self row ;;
      rows <- generate_loop self turns' row' ;;
      ret (row' :: rows)
  end.

Definition generate (self : t) (n : Z) : M (list (list bool)) :=
  let row := [true] in
  rows <- generate_loop self (Z.to_nat (n - 1)) row ;;
  ret (row :: rows).

(** The four places one active cell is copied to. *)
Definition rotations (center_x center_y raw_x raw_y : Z) : list (Z * Z) :=
  [ (center_x + raw_x, center_y + raw_y);
    (center_x - raw_x, center_y - raw_y);
    (center_x - raw_y, center_y + raw_x);
    (center_x + raw_y, center_y - raw_x) ].

(** The four [grid.set] calls for one active cell, in order. *)
Fixpoint set_all (grid : Grid.t) (places : list (Z * Z))
  : Py.result Grid.t :=
  match places with
  | [] => inr grid
  | (x, y) :: rest =>
      Py.bind (Grid.set grid x y true) (fun grid' => set_all grid' rest)
  end.

(** [for i, cell in enumerate(row): if cell: ...], from position [i]. *)
Fixpoint write_row (center_x center_y index i : Z) (row : list bool)
  (grid : Grid.t) : Py.result Grid.t :=
  match row with
  | [] => inr grid
  | cell :: rest =>
      if cell then
        let raw_x := index in
        let raw_y := i - index in
        Py.bind (set_all grid (rotations center_x center_y raw_x raw_y))
                (fun grid' =>
                   write_row center_x center_y index (i + 1) rest grid')
      else write_row center_x center_y index (i + 1) rest grid
  end.

(** [for index, row in enumerate(self.generate(n))]: the generator is
    resumed once per turn, so the row after [row] is computed only after
    [row] has been written; [turns] counts what is left of
    [xrange(n - 1)]. *)
Fixpoint write_rows (self : t) (center_x center_y : Z) (turns : nat)
  (index : Z) (row : list bool) (grid : Grid.t) : M Grid.t :=
  grid' <- lift (write_row center_x center_y index 0 row grid) ;;
  match turns with
  | O => ret grid'
  | S turns' =>
      row' <- _calculate_row self row ;;
      write_rows self center_x center_y turns' (index + 1) row' grid'
  end.

Definition create_grid (self : t) (n : Z) : M Grid.t :=
  let size := n * 2 - 1 in
  let grid := Grid.init size size None in
  let center_x := fst (Grid.center grid) in
  let center_y := snd (Grid.center grid) in
  s <- _generate_seed self (seed self) ;;
  let grid := Grid.set_seed grid s in
  random_seed s ;;;
  write_rows self center_x center_y (Z.to_nat (n - 1)) 0 [true] grid.

End Generator.
End Generator.

(** ** The generator object of [generate] *)

(** [generate] is a generator function: nothing runs until [next] is
    called, and each call runs to the following [yield].  [GenStart n] is
    the generator before its first [next] ([n] is [None] for no count);
    [GenLoop row turns] is suspended at a [yield] of one of the two loops,
    [turns] being [None] in [while True] and the turns to go of
    [xrange(n - 1)] otherwise; [GenDone] has returned. *)
Inductive generator : Type :=
| GenStart (n : option Z)
| GenLoop (row : list bool) (turns : option nat)
| GenDone.

(** One call of [next]: [None] stands for [StopIteration]. *)
Definition generate_next {RS : RandomSource} (self : Generator.t)
  (gen : generator) : M (option (list bool) * generator) :=
  match gen with
  | GenStart n =>
      let row := [true] in
      ret (Some row,
           GenLoop row
             match n with
             | None => None
             | Some n => Some (Z.to_nat (n - 1))
             end)
  | GenLoop row None =>
      row' <- Generator._calculate_row self row ;;
      ret (Some row', GenLoop row' None)
  | GenLoop row (Some (S turns)) =>
      row' <- Generator._calculate_row self row ;;
      ret (Some row', GenLoop row' (Some turns))
  | GenLoop row (Some O) => ret (None, GenDone)
  | GenDone => ret (None, GenDone)
  end.

(** At most [calls] calls of [next], stopping at [StopIteration]: the rows
    obtained and the generator left. *)
Fixpoint pull {RS : RandomSource} (self : Generator.t) (calls : nat)
  (gen : generator) : M (list (list bool) * generator) :=
  match calls with
  | O => ret ([], gen)
  | S calls' =>
      step <- generate_next self gen ;;
      match step with
      | (Some row, gen') =>
          rest <- pull self calls' gen' ;;
          ret (row :: fst rest, snd rest)
      | (None, gen') => ret ([], gen')
      end
  end.

(** [xrange(k)] *)
Definition xrange (k : Z) : list Z := map Z.of_nat (seq 0 (Z.to_nat k)).

(** [s * k] for a string [s]: nothing when [k] is not positive. *)
Definition str_times (s : string) (k : Z) : string :=
  Py.join (repeat s (Z.to_nat k)).

(** [sep.join(parts)] *)
Fixpoint join_with (sep : string) (parts : list string) : string :=
  match parts with
  | [] => EmptyString
  | [part] => part
  | part :: rest => (part ++ sep ++ join_with sep rest)%string
  end.

Definition newline : string := String (ascii_of_nat 10) EmptyString.

(** ** class AsciiRenderer *)

Module AsciiRenderer.

(** The inner loop of [to_string]: one character for each [y]. *)
Fixpoint cells (grid : Grid.t) (x : Z) (ys : list Z)
  : Py.result (list string) :=
  match ys with
  | [] => inr []
  | y :: rest =>
      Py.bind (Grid.get grid x y) (fun c =>
      Py.bind (cells grid x rest) (fun row =>
      inr ((if c then "#" else " ")%string :: row)))
  end.

(** The outer loop: one line for each [x]. *)
Fixpoint lines (grid : Grid.t) (xs : list Z) : Py.result (list string) :=
  match xs with
  | [] => inr []
  | x :: rest =>
      Py.bind (cells grid x (xrange (Grid.height grid))) (fun row =>
      let line := Py.join (["["%string] ++ row ++ ["]"%string]) in
      Py.bind (lines grid rest) (fun out => inr (line :: out)))
  end.

Definition to_string (grid : Grid.t) : Py.result string :=
  Py.bind (lines grid (xrange (Grid.width grid))) (fun out =>
  inr (join_with newline out)).

End AsciiRenderer.

(** ** class PygameRenderer *)

(** Of the renderer, what does not belong to [pygame]: the size of the
    window, and the places at which [render] blits the tile. *)
Module PygameRenderer.

Record t : Type := Make { pixel_size : Z; size : Z * Z }.

(** [PygameRenderer(n, pixel_size)] *)
Definition init (n pixel_size : Z) : t :=
  let side_length := n * 2 - 1 in
  {| pixel_size := pixel_size;
     size := (side_length * pixel_size, side_length * pixel_size) |}.

(** [for y, cell in enumerate(column): if cell: blit at (x_cell, y * pixel_size)],
    from index [y]. *)
Fixpoint blit_column (self : t) (x_cell y : Z) (column : list bool)
  : list (Z * Z) :=
  match column with
  | [] => []
  | cell :: rest =>
      (if cell then [(x_cell, y * pixel_size self)] else [])
      ++ blit_column self x_cell (y + 1) rest
  end.

(** [for x, column in enumerate(self.grid.array)], from index [x]. *)
Fixpoint blit_columns (self : t) (x : Z) (columns : list (list bool))
  : list (Z * Z) :=
  match columns with
  | [] => []
  | column :: rest =>
      let x_cell := x * pixel_size self in
      blit_column self x_cell 0 column ++ blit_columns self (x + 1) rest
  end.

(** The positions [render(grid)] blits the tile at, in order. *)
Definition render_blits (self : t) (grid : Grid.t) : list (Z * Z) :=
  blit_columns self 0 (Grid.array grid).

End PygameRenderer.

(** ** test_rows *)

(** The lines [test_rows(n)] prints.  [Generator()] has no seed and the
    rule [rule150]; the generator never raises and a [print] does not touch
    the world, so the lines are those of the rows in order. *)
Definition test_rows_line (n index : Z) (row : list bool) : string :=
  let padding := str_times " " (n - index - 1) in
  let body := Py.join (map (fun c : bool => if c then "#" else " ")%string row) in
  ("[" ++ padding ++ body ++ padding ++ "]")%string.

Fixpoint test_rows_lines (n index : Z) (rows : list (list bool))
  : list string :=
  match rows with
  | [] => []
  | row :: rest =>
      test_rows_line n index row :: test_rows_lines n (index + 1) rest
  end.

Definition test_rows {RS : RandomSource} (n : Z) : M (list string) :=
  let g := Generator.Make SeedNone Rules.rule150 in
  rows <- Generator.generate g n ;;
  ret (test_rows_lines n 0 rows).

(** ** Vocabulary of the properties *)

(** The error kinds the specification names, and the kind each exception
    of the program stands for: [IndexError] is an access outside the
    buffer, [ValueError] is a seed whose digits do not parse.  Nothing in
    the program stands for [InvalidWedgeSizeError]. *)
Inductive error_kind : Set :=
| InvalidSeedError
| InvalidWedgeSizeError
| OutOfBoundsError.

Definition kind_of (e : Py.exn) : error_kind :=
  match e with
  | Py.IndexError => OutOfBoundsError
  | Py.ValueError => InvalidSeedError
  end.

(** The number of [True] cells of a neighbourhood. *)
Definition count_true (cells : list bool) : nat :=
  length (List.filter (fun c => c) cells).

(** The values [random.randint(a, b)] can return, each as likely as any
    other: [a], [a + 1], ..., [b]. *)
Definition randint_outcomes (a b : Z) : list Z :=
  map (fun k => a + Z.of_nat k) (seq 0 (Z.to_nat (b - a + 1))).

(** The chance that [rule150randomized] answers [False] on [above]: the
    outcomes of its one draw on which it does so, over all outcomes. *)
Definition suppress_probability (above : list bool) : Q :=
  Qmake
    (Z.of_nat (length (List.filter
                         (fun draw => negb (Rules.randomized_result above draw))
                         (randint_outcomes 0 2000))))
    (Pos.of_nat (length (randint_outcomes 0 2000))).

(** The integer whose decimal writing is the decimal writings of the
    code points [codes] (each below 1000) one after the other: appending a
    code point of [d] digits shifts what is there by [d] places. *)
Definition decimal_width (k : Z) : Z :=
  if k <? 10 then 1 else if k <? 100 then 2 else 3.

Definition append_decimal (acc k : Z) : Z := acc * 10 ^ decimal_width k + k.

Definition concat_decimal (codes : list Z) : Z :=
  fold_left append_decimal codes 0.

(** Rows each two cells longer than the one before, starting after [row]. *)
Fixpoint grows_by_two (row : list bool) (rows : list (list bool)) : Prop :=
  match rows with
  | [] => True
  | next :: rest =>
      length next = (length row + 2)%nat /\ grows_by_two next rest
  end.

(** A grid whose buffer has [height] rows of [width] cells each. *)
Definition grid_wf (g : Grid.t) : Prop :=
  0 <= Grid.width g /\ 0 <= Grid.height g /\
  length (Grid.array g) = Z.to_nat (Grid.height g) /\
  Forall (fun row => length row = Z.to_nat (Grid.width g)) (Grid.array g).

(** The grid [g] with the cell of row [j], column [i] replaced. *)
Definition grid_update (g : Grid.t) (i j : nat) (value : bool) : Grid.t :=
  {| Grid.width := Grid.width g; Grid.height := Grid.height g;
     Grid.center := Grid.center g; Grid.seed := Grid.seed g;
     Grid.array :=
       match Grid.array g !! j with
       | Some row => <[j := <[i := value]> row]> (Grid.array g)
       | None => Grid.array g
       end |}.

(** Strings of decimal digits, which is all [to_int] gives to [int]. *)
Fixpoint digit_string (s : string) : bool :=
  match s with
  | EmptyString => true
  | String c r =>
      match Py.digit c with
      | Some _ => digit_string r
      | None => false
      end
  end.

Definition codes (item : string) : list string :=
  map (fun x => Py.str (Py.ord x)) (list_ascii_of_string item).

(** Cells inside the buffer, addressed from its first row and column. *)
Definition inside (g : Grid.t) (x y : Z) : Prop :=
  0 <= x < Grid.width g /\ 0 <= y < Grid.height g.

(** What [get] reads, [False] standing for a read that raises. *)
Definition cell (g : Grid.t) (x y : Z) : bool :=
  match Grid.get g x y with
  | inr value => value
  | inl _ => false
  end.

(** Whether the cell [(x, y)] is one of [places]. *)
Definition hits (places : list (Z * Z)) (x y : Z) : bool :=
  existsb (fun p => (x =? fst p) && (y =? snd p)) places.

(** The picture is unchanged by a quarter turn about the cell
    [(n - 1, n - 1)]. *)
Definition rot_sym (n : Z) (g : Grid.t) : Prop :=
  forall a b,
    - (n - 1) <= a <= n - 1 -> - (n - 1) <= b <= n - 1 ->
    cell g (n - 1 + a) (n - 1 + b) = cell g (n - 1 - b) (n - 1 + a).

(** What holds of the grid throughout the assembly of [n] rows. *)
Definition assembled (n : Z) (g : Grid.t) : Prop :=
  grid_wf g /\
  Grid.width g = 2 * n - 1 /\ Grid.height g = 2 * n - 1 /\
  Grid.center g = (n - 1, n - 1) /\
  rot_sym n g.

(** Writing the rows of a list one after the other, the first as the row
    of index [index]. *)
Fixpoint write_list (center_x center_y index : Z) (rows : list (list bool))
  (grid : Grid.t) : Py.result Grid.t :=
  match rows with
  | [] => inr grid
  | row :: rest =>
      Py.bind (Generator.write_row center_x center_y index 0 row grid)
              (fun grid' => write_list center_x center_y (index + 1) rest grid')
  end.

(** Two outcomes with the same result and the same random state. *)
Definition same_run {RS : RandomSource} {A} (p q : Py.result A * world) : Prop :=
  fst p = fst q /\ rand (snd p) = rand (snd q).

(** A computation that sees the random source and nothing else of the
    world. *)
Definition rand_only {RS : RandomSource} {A} (m : M A) : Prop :=
  forall w1 w2, rand w1 = rand w2 -> same_run (m w1) (m w2).

(** A small linear congruential source and a generator for each rule, to
    run the program on inputs. *)
Definition lcg_next (r : Z) : Z := (r * 1103515245 + 12345) mod 2147483648.

Definition lcg_randint (a b r : Z) : Z * Z :=
  (a + lcg_next r mod (b - a + 1), lcg_next r).

Definition lcg : RandomSource.
Proof.
  refine {| rng := Z;
            rng_seed := fun a => Z.abs a;
            rng_randint := lcg_randint |}.
  intros a b r Hab. unfold lcg_randint. cbn [fst].
  pose proof (Z.mod_pos_bound (lcg_next r) (b - a + 1)). lia.
Defined.

Definition demo_world : @world lcg := @World lcg 7 "1385061223.42".

Definition demo_parity (seed : seed_value) : @Generator.t lcg :=
  Generator.Make seed Rules.rule150.

Definition demo_randomized (seed : seed_value) : @Generator.t lcg :=
  Generator.Make seed Rules.rule150randomized.

(** Whether [i] is an index a list of [len] items accepts. *)
Definition index_ok (len i : Z) : bool := (- len <=? i) && (i <? len).

(** The cell of a row at position [k], [False] outside the row. *)
Definition cell_at (row : list bool) (k : Z) : bool :=
  if 0 <=? k then default false (row !! Z.to_nat k) else false.

Definition xor3 (a b c : bool) : bool := xorb (xorb a b) c.

(** The row after [row] under the parity rule. *)
Definition parity_step (row : list bool) : list bool :=
  map Rules.black (Generator._above row).

(** The rows that follow [row] under the parity rule, [turns] of them. *)
Fixpoint parity_rows (turns : nat) (row : list bool) : list (list bool) :=
  match turns with
  | O => []
  | S turns' => parity_step row :: parity_rows turns' (parity_step row)
  end.

(** A row that reads the same from both ends and starts with [True]. *)
Definition mirrored (row : list bool) : Prop :=
  rev row = row /\ head row = Some true.

(** Whether the active cells of [row], the row of index [index] taken
    from position [i] on, are copied to the cell [(x, y)]; and the same
    for the rows of a list, the first being the row of index [index]. *)
Fixpoint row_hits (cx cy index i : Z) (row : list bool) (x y : Z) : bool :=
  match row with
  | [] => false
  | c :: rest =>
      (c && hits (Generator.rotations cx cy index (i - index)) x y)
      || row_hits cx cy index (i + 1) rest x y
  end.

Fixpoint rows_hits (cx cy index : Z) (rows : list (list bool)) (x y : Z)
  : bool :=
  match rows with
  | [] => false
  | row :: rest =>
      row_hits cx cy index 0 row x y || rows_hits cx cy (index + 1) rest x y
  end.

(** Rows of the lengths a wedge has, the first being the row of index
    [index] of a wedge of [n] rows. *)
Fixpoint wedge_rows (n index : Z) (rows : list (list bool)) : Prop :=
  match rows with
  | [] => True
  | row :: rest =>
      0 <= index <= n - 1 /\ Z.of_nat (length row) = 2 * index + 1 /\
      wedge_rows n (index + 1) rest
  end.

(** A grid with the shape of the grid of a wedge of [n] rows. *)
Definition square (n : Z) (g : Grid.t) : Prop :=
  grid_wf g /\ Grid.width g = 2 * n - 1 /\ Grid.height g = 2 * n - 1.

(** The line of the text dump for the column [x] of the grid: a bracket,
    one character for each row [y] of the grid, a bracket. *)
Definition dump_char (c : bool) : ascii := if c then "#"%char else " "%char.

Definition dump_line (g : Grid.t) (x : Z) : string :=
  string_of_list_ascii
    ("["%char :: map (fun y => dump_char (cell g x y)) (xrange (Grid.height g))
     ++ ["]"%char]).


(** ** Indexing *)

Lemma norm_index_high (z i : Z) :
  z <= i -> Py.norm_index (Z.to_nat z) i = None.
Proof.
  intros Hi. unfold Py.norm_index.
  destruct (Z.ltb_spec i 0); cbn zeta.
  - destruct (Z.leb_spec 0 (i + Z.of_nat (Z.to_nat z))); [lia | reflexivity].
  - destruct (Z.leb_spec 0 i); [| lia].
    destruct (Z.ltb_spec i (Z.of_nat (Z.to_nat z))); [lia | reflexivity].
Qed.

Lemma norm_index_mod (len : nat) (i : Z) :
  - Z.of_nat len <= i < Z.of_nat len ->
  Py.norm_index len i = Some (Z.to_nat (i mod Z.of_nat len)).
Proof.
  intros Hi. unfold Py.norm_index.
  destruct (Z.ltb_spec i 0); cbn zeta.
  - destruct (Z.leb_spec 0 (i + Z.of_nat len)); [| lia].
    destruct (Z.ltb_spec (i + Z.of_nat len) (Z.of_nat len)); [| lia].
    cbn. do 2 f_equal.
    apply Z.mod_unique with (q := -1); lia.
  - destruct (Z.leb_spec 0 i); [| lia].
    destruct (Z.ltb_spec i (Z.of_nat len)); [| lia].
    cbn. do 2 f_equal. symmetry. apply Z.mod_small. lia.
Qed.

Lemma norm_index_lt (len : nat) (i : Z) (k : nat) :
  Py.norm_index len i = Some k -> (k < len)%nat.
Proof.
  unfold Py.norm_index.
  destruct (Z.ltb_spec i 0); cbn zeta;
    match goal with
    | |- context [(0 <=? ?j) && (?j <? ?n)] =>
        destruct (Z.leb_spec 0 j); destruct (Z.ltb_spec j n); cbn
    end; intros [= <-]; lia.
Qed.

Lemma getitem_high {A} (l : list A) (z i : Z) :
  length l = Z.to_nat z -> z <= i -> Py.getitem l i = inl Py.IndexError.
Proof.
  intros Hl Hi. unfold Py.getitem. rewrite Hl, norm_index_high by lia.
  reflexivity.
Qed.

Lemma setitem_high {A} (l : list A) (z i : Z) (v : A) :
  length l = Z.to_nat z -> z <= i -> Py.setitem l i v = inl Py.IndexError.
Proof.
  intros Hl Hi. unfold Py.setitem. rewrite Hl, norm_index_high by lia.
  reflexivity.
Qed.

Lemma getitem_inv {A} (l : list A) (i : Z) (v : A) :
  Py.getitem l i = inr v -> v ∈ l.
Proof.
  unfold Py.getitem. destruct (Py.norm_index _ _) as [k |]; [| discriminate].
  destruct (l !! k) as [v' |] eqn:Hk; [| discriminate].
  intros [= <-]. apply list_elem_of_lookup. eauto.
Qed.

Lemma getitem_exn {A} (l : list A) (i : Z) (e : Py.exn) :
  Py.getitem l i = inl e -> e = Py.IndexError.
Proof.
  unfold Py.getitem. destruct (Py.norm_index _ _) as [k |].
  - destruct (l !! k); [discriminate | congruence].
  - congruence.
Qed.

(** ** The rules *)

(** C4. On a neighbourhood of three cells [rule150] answers [True] exactly
    when an odd number of them is [True]: its answer is the exclusive or of
    the three cells, it leaves the random source alone, and the
    neighbourhoods it accepts are the four entries of its table. *)
Theorem rule150_parity {RS : RandomSource} (a b c : bool) (r : rng) :
  Rules.rule150 [a; b; c] r = (Nat.odd (count_true [a; b; c]), r) /\
  Nat.odd (count_true [a; b; c]) = xorb (xorb a b) c /\
  (Nat.odd (count_true [a; b; c]) = true <->
   In [a; b; c] [[true; false; false]; [false; true; false];
                 [false; false; true]; [true; true; true]]).
Proof.
  unfold Rules.rule150.
  destruct a, b, c; cbn; repeat split; try reflexivity; try discriminate;
    intros; intuition (try discriminate; auto).
Qed.

Lemma randomized_on_black (above : list bool) :
  Rules.black above = true ->
  List.filter (fun draw => negb (Rules.randomized_result above draw))
              (randint_outcomes 0 2000)
  = List.filter (fun draw => draw =? 0) (randint_outcomes 0 2000).
Proof.
  intros Hb. apply List.filter_ext. intros draw.
  unfold Rules.randomized_result. rewrite Hb. apply negb_involutive.
Qed.

(** C2, as the program behaves.  On a neighbourhood the parity rule accepts,
    [rule150randomized] draws once from [randint(0, 2000)] and answers
    [False] for the draw [0] alone: one outcome of the 2001 the draw has,
    so the answer is suppressed with probability 1/2001, which is not
    1/2000.  On any other neighbourhood it answers [False] without
    drawing. *)
Theorem rule150randomized_suppression {RS : RandomSource}
  (above : list bool) (r : rng) :
  (Rules.black above = true ->
     Rules.rule150randomized above r
       = (Rules.randomized_result above (fst (rng_randint 0 2000 r)),
          snd (rng_randint 0 2000 r)) /\
     In (fst (rng_randint 0 2000 r)) (randint_outcomes 0 2000) /\
     (forall draw, Rules.randomized_result above draw = false <-> draw = 0) /\
     suppress_probability above = Qmake 1 2001 /\
     ~ Qeq (suppress_probability above) (Qmake 1 2000)) /\
  (Rules.black above = false ->
     Rules.rule150randomized above r = (false, r) /\
     forall draw, Rules.randomized_result above draw = false).
Proof.
  split; intros Hb.
  - split; [| split; [| split; [| split]]].
    + unfold Rules.rule150randomized, Rules.randomized_result. rewrite Hb.
      destruct (rng_randint 0 2000 r); reflexivity.
    + pose proof (rng_randint_range 0 2000 r ltac:(lia)) as Hr.
      unfold randint_outcomes. apply in_map_iff.
      exists (Z.to_nat (fst (rng_randint 0 2000 r))). split; [lia |].
      apply in_seq. lia.
    + intros draw. unfold Rules.randomized_result. rewrite Hb.
      destruct (Z.eqb_spec draw 0); cbn; split; congruence.
    + unfold suppress_probability. rewrite (randomized_on_black _ Hb).
      vm_compute. reflexivity.
    + unfold suppress_probability. rewrite (randomized_on_black _ Hb).
      vm_compute. discriminate.
  - split.
    + unfold Rules.rule150randomized. rewrite Hb. reflexivity.
    + intros draw. unfold Rules.randomized_result. rewrite Hb. reflexivity.
Qed.

(** ** The grid buffer *)

(** C7. On a grid as its constructor leaves it, reading or writing a cell
    whose column is at least the width, or whose row is at least the
    height, raises [IndexError], the program's out-of-bounds error; no value
    is returned and no grid is written. *)
Theorem grid_access_beyond_size (w h x y : Z) (s : option Z) (value : bool) :
  w <= x \/ h <= y ->
  Grid.get (Grid.init w h s) x y = inl Py.IndexError /\
  Grid.set (Grid.init w h s) x y value = inl Py.IndexError /\
  kind_of Py.IndexError = OutOfBoundsError.
Proof.
  intros Hxy. unfold Grid.get, Grid.set, Grid.init. cbn [Grid.array].
  set (rows := replicate (Z.to_nat h) (replicate (Z.to_nat w) false)).
  assert (Hrows : length rows = Z.to_nat h) by apply length_replicate.
  destruct (Py.getitem rows y) as [e | row] eqn:Hrow.
  - apply getitem_exn in Hrow as ->. auto.
  - assert (h <= y -> False) as Hy.
    { intros Hy. rewrite (getitem_high rows h y Hrows Hy) in Hrow.
      discriminate. }
    assert (w <= x) as Hx by tauto.
    apply getitem_inv, elem_of_replicate in Hrow as [-> _].
    cbn [Py.bind].
    rewrite (getitem_high _ w x), (setitem_high _ w x);
      auto using length_replicate.
Qed.

(** Reading and writing through a row index and a column index the
    interpreter has accepted. *)
Lemma grid_access_at (g : Grid.t) (x y : Z) (value : bool) (i j : nat)
  (row : list bool) (c : bool) :
  Py.norm_index (length (Grid.array g)) y = Some j ->
  Grid.array g !! j = Some row ->
  Py.norm_index (length row) x = Some i ->
  row !! i = Some c ->
  Grid.get g x y = inr c /\
  Grid.set g x y value = inr (grid_update g i j value).
Proof.
  intros Hy Hj Hx Hi.
  unfold Grid.get, Grid.set, grid_update, Py.getitem, Py.setitem.
  rewrite Hy, Hj. cbn [Py.bind]. rewrite Hx, Hi. cbn [Py.bind].
  split; reflexivity.
Qed.

Lemma grid_wf_row (g : Grid.t) (j : nat) (row : list bool) :
  grid_wf g -> Grid.array g !! j = Some row ->
  Z.of_nat (length row) = Grid.width g.
Proof.
  intros (Hw & _ & _ & Hcols) Hj. rewrite Forall_forall in Hcols.
  rewrite (Hcols row); [lia |]. apply list_elem_of_lookup. eauto.
Qed.

(** C10. On a grid of [width] columns and [height] rows, a column in
    [-width, width) and a row in [-height, height) are accepted even when
    negative: [get] returns, and [set] replaces, the cell of column
    [x mod width] and row [y mod height], and neither raises. *)
Theorem grid_negative_index_wraps (g : Grid.t) (x y : Z) (value : bool) :
  grid_wf g ->
  - Grid.width g <= x < Grid.width g ->
  - Grid.height g <= y < Grid.height g ->
  let i := Z.to_nat (x mod Grid.width g) in
  let j := Z.to_nat (y mod Grid.height g) in
  exists row cell,
    Grid.array g !! j = Some row /\ row !! i = Some cell /\
    Grid.get g x y = inr cell /\
    Grid.set g x y value = inr (grid_update g i j value).
Proof.
  intros Hwf Hx Hy i j.
  assert (Hlen : Z.of_nat (length (Grid.array g)) = Grid.height g).
  { destruct Hwf as (_ & Hh & Hrows & _). lia. }
  assert (Hny : Py.norm_index (length (Grid.array g)) y = Some j).
  { rewrite norm_index_mod by lia. rewrite Hlen. reflexivity. }
  destruct (lookup_lt_is_Some_2 (Grid.array g) j) as [row Hj].
  { exact (norm_index_lt _ _ _ Hny). }
  pose proof (grid_wf_row g j row Hwf Hj) as Hrow.
  assert (Hnx : Py.norm_index (length row) x = Some i).
  { rewrite norm_index_mod by lia. rewrite Hrow. reflexivity. }
  destruct (lookup_lt_is_Some_2 row i) as [c Hi].
  { exact (norm_index_lt _ _ _ Hnx). }
  exists row, c. split; [exact Hj |]. split; [exact Hi |].
  exact (grid_access_at g x y value i j row c Hny Hj Hnx Hi).
Qed.

Lemma norm_index_inside (len : nat) (i : Z) :
  0 <= i < Z.of_nat len -> Py.norm_index len i = Some (Z.to_nat i).
Proof.
  intros Hi. unfold Py.norm_index.
  destruct (Z.ltb_spec i 0); [lia |]. cbn zeta.
  destruct (Z.leb_spec 0 i); [| lia].
  destruct (Z.ltb_spec i (Z.of_nat len)); [reflexivity | lia].
Qed.

Lemma grid_access_inside (g : Grid.t) (x y : Z) (value : bool) :
  grid_wf g -> inside g x y ->
  exists row c,
    Grid.array g !! Z.to_nat y = Some row /\ row !! Z.to_nat x = Some c /\
    Grid.get g x y = inr c /\
    Grid.set g x y value = inr (grid_update g (Z.to_nat x) (Z.to_nat y) value).
Proof.
  intros Hwf [Hx Hy].
  assert (Hlen : Z.of_nat (length (Grid.array g)) = Grid.height g).
  { destruct Hwf as (_ & Hh & Hrows & _). lia. }
  destruct (lookup_lt_is_Some_2 (Grid.array g) (Z.to_nat y)) as [row Hj]; [lia |].
  pose proof (grid_wf_row g _ row Hwf Hj) as Hrow.
  destruct (lookup_lt_is_Some_2 row (Z.to_nat x)) as [c Hi]; [lia |].
  exists row, c. split; [exact Hj |]. split; [exact Hi |].
  apply (grid_access_at g x y value _ _ row c); auto;
    apply norm_index_inside; lia.
Qed.

Lemma get_inside (g : Grid.t) (x y : Z) :
  grid_wf g -> inside g x y -> Grid.get g x y = inr (cell g x y).
Proof.
  intros Hwf Hin.
  destruct (grid_access_inside g x y true Hwf Hin) as (row & c & _ & _ & Hget & _).
  unfold cell. rewrite Hget. reflexivity.
Qed.

Lemma grid_update_wf (g : Grid.t) (i j : nat) (value : bool) :
  grid_wf g -> grid_wf (grid_update g i j value).
Proof.
  intros (Hw & Hh & Hrows & Hcols). unfold grid_wf, grid_update.
  cbn [Grid.width Grid.height Grid.array].
  destruct (Grid.array g !! j) as [row |] eqn:Hj; [| auto].
  repeat split; auto.
  - rewrite length_insert. exact Hrows.
  - apply Forall_insert; [exact Hcols |]. rewrite length_insert.
    rewrite Forall_forall in Hcols. apply Hcols, list_elem_of_lookup. eauto.
Qed.

Lemma grid_update_cell (g : Grid.t) (x y x' y' : Z) (value : bool) :
  grid_wf g -> inside g x y -> inside g x' y' ->
  cell (grid_update g (Z.to_nat x) (Z.to_nat y) value) x' y'
  = if (x' =? x) && (y' =? y) then value else cell g x' y'.
Proof.
  intros Hwf Hin Hin'.
  pose proof (grid_update_wf g (Z.to_nat x) (Z.to_nat y) value Hwf) as Hwf'.
  destruct (grid_access_inside g x y value Hwf Hin) as (row & c & Hrow & Hc & _ & _).
  destruct (grid_access_inside g x' y' value Hwf Hin')
    as (row1 & c1 & Hrow1 & Hc1 & Hget1 & _).
  destruct (grid_access_inside _ x' y' value Hwf' Hin')
    as (row2 & c2 & Hrow2 & Hc2 & Hget2 & _).
  unfold cell. rewrite Hget1, Hget2.
  unfold grid_update in Hrow2. cbn [Grid.array] in Hrow2. rewrite Hrow in Hrow2.
  destruct Hin as [Hx Hy], Hin' as [Hx' Hy'].
  destruct (Z.eqb_spec y' y) as [-> | Hny].
  - rewrite list_lookup_insert_eq in Hrow2 by (apply lookup_lt_Some in Hrow; exact Hrow).
    injection Hrow2 as <-. assert (row1 = row) as -> by congruence.
    destruct (Z.eqb_spec x' x) as [-> | Hnx]; cbn [andb].
    + rewrite list_lookup_insert_eq in Hc2 by (apply lookup_lt_Some in Hc; exact Hc).
      congruence.
    + rewrite list_lookup_insert_ne in Hc2 by lia. congruence.
  - rewrite list_lookup_insert_ne in Hrow2 by lia.
    rewrite andb_false_r. congruence.
Qed.

(** One [set] inside the buffer: it succeeds, keeps the shape and the
    other fields, and changes the one cell. *)
Lemma set_inside (g : Grid.t) (x y : Z) (value : bool) :
  grid_wf g -> inside g x y ->
  exists g',
    Grid.set g x y value = inr g' /\ grid_wf g' /\
    Grid.width g' = Grid.width g /\ Grid.height g' = Grid.height g /\
    Grid.center g' = Grid.center g /\ Grid.seed g' = Grid.seed g /\
    forall x' y', inside g x' y' ->
      cell g' x' y' = if (x' =? x) && (y' =? y) then value else cell g x' y'.
Proof.
  intros Hwf Hin.
  destruct (grid_access_inside g x y value Hwf Hin) as (row & c & _ & _ & _ & Hset).
  exists (grid_update g (Z.to_nat x) (Z.to_nat y) value).
  split; [exact Hset |]. split; [apply grid_update_wf, Hwf |].
  repeat split; try reflexivity.
  intros x' y' Hin'. apply grid_update_cell; assumption.
Qed.

(** ** Rows *)

Section Rows.

Context {RS : RandomSource}.
Variable self : Generator.t.

Lemma above_length (row : list bool) :
  length (Generator._above row) = (length row + 2)%nat.
Proof.
  unfold Generator._above. rewrite length_map, length_seq.
  cbn [app length]. rewrite length_app. cbn [length]. lia.
Qed.

Lemma above_windows (row : list bool) :
  Forall (fun window => length window = 3%nat) (Generator._above row).
Proof.
  unfold Generator._above. apply Forall_forall. intros window Hin.
  apply list_elem_of_In, in_map_iff in Hin as (i & <- & Hi).
  apply in_seq in Hi. unfold Py.slice.
  rewrite length_take, length_drop. lia.
Qed.

Lemma map_rule_total (rule : Rule) (windows : list (list bool)) (w : world) :
  exists cells w',
    Generator.map_rule rule windows w = (inr cells, w') /\
    length cells = length windows.
Proof.
  revert w. induction windows as [| above rest IH]; intros w.
  - exists [], w. split; reflexivity.
  - cbn [Generator.map_rule]. unfold mbind at 1, call_rule.
    destruct (rule above (rand w)) as [cell r].
    destruct (IH {| rand := r; clock := clock w |}) as (cells & w' & Hrun & Hlen).
    exists (cell :: cells), w'. unfold mbind, ret. rewrite Hrun.
    split; [reflexivity | cbn; lia].
Qed.

Lemma calculate_row_total (previous_row : list bool) (w : world) :
  exists row w',
    Generator._calculate_row self previous_row w = (inr row, w') /\
    length row = (length previous_row + 2)%nat.
Proof.
  unfold Generator._calculate_row.
  destruct (map_rule_total (Generator.rule self)
              (Generator._above previous_row) w) as (row & w' & Hrun & Hlen).
  exists row, w'. rewrite above_length in Hlen. auto.
Qed.

Lemma generate_loop_total (turns : nat) (row : list bool) (w : world) :
  exists rows w',
    Generator.generate_loop self turns row w = (inr rows, w') /\
    length rows = turns /\ grows_by_two row rows.
Proof.
  revert row w. induction turns as [| turns IH]; intros row w.
  - exists [], w. repeat split.
  - cbn [Generator.generate_loop]. unfold mbind at 1.
    destruct (calculate_row_total row w) as (row' & w1 & -> & Hlen).
    destruct (IH row' w1) as (rows & w' & Hrun & Hrows & Hgrow).
    exists (row' :: rows), w'. unfold mbind, ret. rewrite Hrun.
    cbn. auto.
Qed.

End Rows.

Lemma grows_by_two_step (row : list bool) (rows : list (list bool)) :
  grows_by_two row rows ->
  forall k prev next,
    (row :: rows) !! k = Some prev -> (row :: rows) !! S k = Some next ->
    length next = (length prev + 2)%nat.
Proof.
  revert row. induction rows as [| r rows IH]; intros row Hg k prev next Hk HSk.
  - destruct k; discriminate.
  - destruct Hg as [Hr Hg]. destruct k as [| k].
    + cbn in Hk, HSk. congruence.
    + exact (IH r Hg k prev next Hk HSk).
Qed.

Lemma grows_by_two_nth (row : list bool) (rows : list (list bool)) :
  grows_by_two row rows ->
  forall k r, (row :: rows) !! k = Some r ->
    length r = (length row + 2 * k)%nat.
Proof.
  revert row. induction rows as [| r' rows IH]; intros row Hg k r Hk.
  - destruct k as [| k]; [| discriminate]. cbn in Hk. injection Hk as <-. lia.
  - destruct Hg as [Hr Hg]. destruct k as [| k].
    + cbn in Hk. injection Hk as <-. lia.
    + rewrite (IH r' Hg k r Hk). lia.
Qed.

(** C3. Whatever the rule, for [n >= 1] the generator yields [n] rows and
    never raises; the first row is [[True]]; a row has one cell for each of
    the windows of three cells of the row before it, of which there are two
    more than that row has cells, so each row is two cells longer than the
    one before; and the row of index [k] has [2k + 1] cells. *)
Theorem generate_row_lengths {RS : RandomSource}
  (self : Generator.t) (n : Z) (w : world) :
  1 <= n ->
  exists rows w',
    Generator.generate self n w = (inr rows, w') /\
    length rows = Z.to_nat n /\
    rows !! 0%nat = Some [true] /\
    (forall k prev next,
       rows !! k = Some prev -> rows !! S k = Some next ->
       Forall (fun window => length window = 3%nat) (Generator._above prev) /\
       length (Generator._above prev) = (length prev + 2)%nat /\
       length next = length (Generator._above prev) /\
       length next = (length prev + 2)%nat) /\
    (forall k row, rows !! k = Some row -> length row = (2 * k + 1)%nat).
Proof.
  intros Hn. unfold Generator.generate, mbind.
  destruct (generate_loop_total self (Z.to_nat (n - 1)) [true] w)
    as (rows & w' & -> & Hlen & Hgrow).
  exists ([true] :: rows), w'. unfold ret.
  split; [reflexivity |]. split; [cbn [length]; lia |].
  split; [reflexivity |]. split.
  - intros k prev next Hk HSk.
    pose proof (grows_by_two_step _ _ Hgrow k prev next Hk HSk) as Hstep.
    rewrite above_length. split; [apply above_windows | auto].
  - intros k row Hk.
    rewrite (grows_by_two_nth _ _ Hgrow k row Hk). cbn [length]. lia.
Qed.

(** ** Seeds *)

Lemma digits_of_code (c : ascii) (acc : Z) (rest : string) :
  Py.digits acc (Py.str (Py.ord c) ++ rest)
  = Py.digits (append_decimal acc (Py.ord c)) rest.
Proof.
  destruct c as [[] [] [] [] [] [] [] []];
    unfold append_decimal; simpl; unfold Py.ord, decimal_width; simpl;
    f_equal; lia.
Qed.

Lemma digit_string_app (s t : string) :
  digit_string s = true -> digit_string t = true ->
  digit_string (s ++ t) = true.
Proof.
  intros Hs Ht. induction s as [| c r IH]; [exact Ht |].
  cbn in *. destruct (Py.digit c); auto.
Qed.

Lemma digit_string_code (c : ascii) :
  digit_string (Py.str (Py.ord c)) = true /\
  Py.str (Py.ord c) <> EmptyString.
Proof. destruct c as [[] [] [] [] [] [] [] []]; split; easy. Qed.

Lemma digit_string_join (item : string) :
  digit_string (Py.join (codes item)) = true.
Proof.
  induction item as [| c r IH]; [reflexivity |].
  apply digit_string_app; [apply digit_string_code | exact IH].
Qed.

Lemma digits_join (item : string) (acc : Z) :
  Py.digits acc (Py.join (codes item))
  = Some (fold_left append_decimal (map Py.ord (list_ascii_of_string item)) acc).
Proof.
  revert acc. induction item as [| c r IH]; intros acc; [reflexivity |].
  cbn [codes list_ascii_of_string map Py.join fold_right fold_left].
  rewrite digits_of_code. apply IH.
Qed.

Lemma digit_not_space (c : ascii) (d : Z) :
  Py.digit c = Some d -> Py.is_space c = false.
Proof.
  unfold Py.digit, Py.is_space. cbn zeta.
  destruct (Z.leb_spec 48 (Py.ord c)); [| discriminate].
  destruct (Z.leb_spec (Py.ord c) 57); [| discriminate]. intros _.
  destruct (Z.leb_spec (Py.ord c) 13); [lia |].
  destruct (Z.eqb_spec (Py.ord c) 32); [lia |].
  rewrite andb_false_r. reflexivity.
Qed.

Lemma lstrip_digit_string (s : string) :
  digit_string s = true -> Py.lstrip s = s.
Proof.
  destruct s as [| c r]; [reflexivity |]. cbn.
  destruct (Py.digit c) as [d |] eqn:Hd; [| discriminate].
  rewrite (digit_not_space c d Hd). reflexivity.
Qed.

Lemma rstrip_digit_string (s : string) :
  digit_string s = true -> Py.rstrip s = s.
Proof.
  induction s as [| c r IH]; [reflexivity |]. cbn.
  destruct (Py.digit c) as [d |] eqn:Hd; [| discriminate].
  intros Hr. rewrite (IH Hr), (digit_not_space c d Hd).
  destruct r; reflexivity.
Qed.

Lemma int_digit_string (s : string) :
  digit_string s = true -> Py.int s = Py.unsigned s.
Proof.
  intros Hs. unfold Py.int.
  rewrite (lstrip_digit_string s Hs), (rstrip_digit_string s Hs).
  destruct s as [| c r]; [reflexivity |].
  cbn in Hs. destruct (Py.digit c) eqn:Hd; [| discriminate].
  destruct c as [[] [] [] [] [] [] [] []]; try reflexivity; discriminate.
Qed.

Lemma to_int_value (item : string) :
  item <> EmptyString ->
  Generator.to_int item
  = inr (concat_decimal (map Py.ord (list_ascii_of_string item))).
Proof.
  intros Hne. unfold Generator.to_int. fold (codes item).
  rewrite (int_digit_string _ (digit_string_join item)).
  unfold Py.unsigned. rewrite digits_join. fold (concat_decimal (map Py.ord (list_ascii_of_string item))).
  destruct item as [| c r]; [congruence |].
  cbn [codes list_ascii_of_string map Py.join fold_right].
  destruct (digit_string_code c) as [_ Hc].
  destruct (Py.str (Py.ord c)); [congruence | reflexivity].
Qed.

(** ** Assembly *)

Lemma set_all_inside (places : list (Z * Z)) (g : Grid.t) :
  grid_wf g ->
  Forall (fun p => inside g (fst p) (snd p)) places ->
  exists g',
    Generator.set_all g places = inr g' /\ grid_wf g' /\
    Grid.width g' = Grid.width g /\ Grid.height g' = Grid.height g /\
    Grid.center g' = Grid.center g /\ Grid.seed g' = Grid.seed g /\
    forall x y, inside g x y -> cell g' x y = cell g x y || hits places x y.
Proof.
  revert g. induction places as [| [px py] rest IH]; intros g Hwf Hall.
  - exists g. split; [reflexivity |]. split; [exact Hwf |].
    do 4 (split; [reflexivity |]).
    intros x y _. cbn. rewrite orb_false_r. reflexivity.
  - apply Forall_cons in Hall as [Hp Hrest]. cbn [fst snd] in Hp.
    destruct (set_inside g px py true Hwf Hp)
      as (g1 & Hset & Hwf1 & Hw1 & Hh1 & Hc1 & Hs1 & Hcell1).
    destruct (IH g1 Hwf1) as (g' & Hrun & Hwf' & Hw' & Hh' & Hc' & Hs' & Hcell').
    { eapply Forall_impl; [exact Hrest |]. intros p. unfold inside.
      rewrite Hw1, Hh1. auto. }
    exists g'. cbn [Generator.set_all]. rewrite Hset. cbn [Py.bind].
    split; [exact Hrun |]. split; [exact Hwf' |].
    do 4 (split; [congruence |]).
    intros x y Hin. rewrite Hcell'; [| unfold inside; rewrite Hw1, Hh1; exact Hin].
    rewrite (Hcell1 x y Hin). unfold hits. cbn [existsb fst snd].
    destruct ((x =? px) && (y =? py)), (cell g x y); reflexivity.
Qed.

Lemma hits_rotations (c rx ry a b : Z) :
  hits (Generator.rotations c c rx ry) (c + a) (c + b)
  = hits (Generator.rotations c c rx ry) (c - b) (c + a).
Proof.
  apply eq_true_iff_eq. unfold hits, Generator.rotations.
  cbn [existsb fst snd].
  rewrite !orb_true_iff, !andb_true_iff, !Z.eqb_eq. lia.
Qed.

Lemma rotations_inside (n rx ry : Z) (g : Grid.t) :
  Grid.width g = 2 * n - 1 -> Grid.height g = 2 * n - 1 ->
  - (n - 1) <= rx <= n - 1 -> - (n - 1) <= ry <= n - 1 ->
  Forall (fun p => inside g (fst p) (snd p))
         (Generator.rotations (n - 1) (n - 1) rx ry).
Proof.
  intros Hw Hh Hx Hy. unfold Generator.rotations, inside.
  rewrite Hw, Hh. repeat constructor; cbn [fst snd]; lia.
Qed.

Lemma write_cell_assembled (n rx ry : Z) (g : Grid.t) :
  assembled n g ->
  - (n - 1) <= rx <= n - 1 -> - (n - 1) <= ry <= n - 1 ->
  exists g',
    Generator.set_all g (Generator.rotations (n - 1) (n - 1) rx ry) = inr g' /\
    assembled n g' /\ Grid.seed g' = Grid.seed g.
Proof.
  intros (Hwf & Hw & Hh & Hc & Hsym) Hx Hy.
  destruct (set_all_inside _ g Hwf (rotations_inside n rx ry g Hw Hh Hx Hy))
    as (g' & Hrun & Hwf' & Hw' & Hh' & Hc' & Hs' & Hcell).
  exists g'. split; [exact Hrun |]. split; [| exact Hs'].
  split; [exact Hwf' |]. do 3 (split; [congruence |]).
  intros a b Ha Hb.
  rewrite !Hcell by (unfold inside; lia).
  rewrite (Hsym a b Ha Hb), hits_rotations. reflexivity.
Qed.

Lemma write_row_assembled (n index : Z) (row : list bool) :
  0 <= index <= n - 1 ->
  forall (i : Z) (g : Grid.t),
    0 <= i -> i + Z.of_nat (length row) <= 2 * index + 1 ->
    assembled n g ->
    exists g',
      Generator.write_row (n - 1) (n - 1) index i row g = inr g' /\
      assembled n g' /\ Grid.seed g' = Grid.seed g.
Proof.
  intros Hindex. induction row as [| c rest IH]; intros i g Hi Hlen Hg.
  - exists g. auto.
  - cbn [length] in Hlen. cbn [Generator.write_row]. destruct c.
    + destruct (write_cell_assembled n index (i - index) g Hg)
        as (g1 & -> & Hg1 & Hs1); [lia | lia |].
      cbn [Py.bind].
      destruct (IH (i + 1) g1) as (g' & Hrun & Hg' & Hs'); [lia | lia | exact Hg1 |].
      exists g'. split; [exact Hrun | split; [exact Hg' | congruence]].
    + apply IH; [lia | lia | exact Hg].
Qed.

Lemma write_rows_assembled {RS : RandomSource} (self : Generator.t) (n : Z)
  (turns : nat) :
  forall (index : Z) (row : list bool) (g : Grid.t) (w : world),
    0 <= index -> index + Z.of_nat turns = n - 1 ->
    Z.of_nat (length row) = 2 * index + 1 ->
    assembled n g ->
    exists g' w',
      Generator.write_rows self (n - 1) (n - 1) turns index row g w
        = (inr g', w') /\
      assembled n g' /\ Grid.seed g' = Grid.seed g.
Proof.
  induction turns as [| turns IH]; intros index row g w Hi Hn Hlen Hg;
    cbn [Generator.write_rows]; unfold mbind at 1, lift;
    destruct (write_row_assembled n index row ltac:(lia) 0 g
                ltac:(lia) ltac:(lia) Hg) as (g1 & -> & Hg1 & Hs1).
  - exists g1, w. auto.
  - unfold mbind at 1.
    destruct (calculate_row_total self row w) as (row' & w1 & -> & Hrow').
    destruct (IH (index + 1) row' g1 w1) as (g' & w' & Hrun & Hg' & Hs');
      [lia | lia | lia | exact Hg1 |].
    exists g', w'. split; [exact Hrun | split; [exact Hg' | congruence]].
Qed.

Lemma cell_init (x y w h : Z) (s : option Z) :
  cell (Grid.init w h s) x y = false.
Proof.
  unfold cell, Grid.get, Grid.init. cbn [Grid.array].
  destruct (Py.getitem _ y) as [e | row] eqn:Hrow; [reflexivity |].
  apply getitem_inv, elem_of_replicate in Hrow as [-> _]. cbn [Py.bind].
  destruct (Py.getitem _ x) as [e | c] eqn:Hc; [reflexivity |].
  apply getitem_inv, elem_of_replicate in Hc as [-> _]. reflexivity.
Qed.

Lemma init_center (n : Z) (s : option Z) :
  Grid.center (Grid.init (n * 2 - 1) (n * 2 - 1) s) = (n - 1, n - 1).
Proof.
  cbn [Grid.init Grid.center].
  replace ((n * 2 - 1) / 2) with (n - 1); [reflexivity |].
  apply Z.div_unique with (r := 1); lia.
Qed.

Lemma init_assembled (n : Z) (s : option Z) :
  1 <= n -> assembled n (Grid.init (n * 2 - 1) (n * 2 - 1) s).
Proof.
  intros Hn. split; [| split; [| split; [| split]]].
  - unfold grid_wf, Grid.init.
    cbn [Grid.width Grid.height Grid.array].
    repeat split; try lia.
    + apply length_replicate.
    + apply Forall_replicate, length_replicate.
  - cbn. lia.
  - cbn. lia.
  - apply init_center.
  - intros a b _ _. rewrite !cell_init. reflexivity.
Qed.

Lemma set_seed_assembled (n s : Z) (g : Grid.t) :
  assembled n g -> assembled n (Grid.set_seed g s).
Proof. intros Hg. exact Hg. Qed.

Lemma getitem_nil {A} (i : Z) : Py.getitem (@nil A) i = inl Py.IndexError.
Proof.
  unfold Py.getitem, Py.norm_index. cbn [length].
  destruct (i <? 0);
    match goal with
    | |- context [(0 <=? ?j) && (?j <? ?k)] =>
        destruct (Z.leb_spec 0 j); destruct (Z.ltb_spec j k);
        try reflexivity; lia
    end.
Qed.

Lemma unsigned_exn (s : string) (e : Py.exn) :
  Py.unsigned s = inl e -> e = Py.ValueError.
Proof.
  unfold Py.unsigned. destruct s; [congruence |].
  destruct (Py.digits 0 _); [discriminate | congruence].
Qed.

Lemma int_exn (s : string) (e : Py.exn) :
  Py.int s = inl e -> e = Py.ValueError.
Proof.
  unfold Py.int. destruct (Py.rstrip (Py.lstrip s)) as [| c r].
  - apply unsigned_exn.
  - destruct c as [[] [] [] [] [] [] [] []];
      try apply unsigned_exn.
    destruct (Py.unsigned r) as [e' |] eqn:Hr; [| discriminate].
    cbn [Py.bind]. apply unsigned_exn in Hr. congruence.
Qed.

Section Assembly.

Context {RS : RandomSource}.
Variable self : Generator.t.

Lemma generate_seed_exn (seed : seed_value) (w : world) (e : Py.exn) :
  fst (Generator._generate_seed self seed w) = inl e -> e = Py.ValueError.
Proof.
  destruct seed; cbn; try discriminate; apply int_exn.
Qed.

Lemma create_grid_unfold (n : Z) (w : world) :
  Generator.create_grid self n w
  = match Generator._generate_seed self (Generator.seed self) w with
    | (inr s, w1) =>
        Generator.write_rows self
          (fst (Grid.center (Grid.init (n * 2 - 1) (n * 2 - 1) None)))
          (snd (Grid.center (Grid.init (n * 2 - 1) (n * 2 - 1) None)))
          (Z.to_nat (n - 1)) 0 [true]
          (Grid.set_seed (Grid.init (n * 2 - 1) (n * 2 - 1) None) s)
          {| rand := rng_seed s; clock := clock w1 |}
    | (inl e, w1) => (inl e, w1)
    end.
Proof.
  unfold Generator.create_grid. cbv zeta. unfold mbind at 1.
  destruct (Generator._generate_seed self _ w) as [[e | s] w1];
    reflexivity.
Qed.

Lemma create_grid_seed_error (n : Z) (w : world) (e : Py.exn) :
  fst (Generator._generate_seed self (Generator.seed self) w) = inl e ->
  fst (Generator.create_grid self n w) = inl e.
Proof.
  rewrite create_grid_unfold.
  destruct (Generator._generate_seed self _ w) as [[e' | s] w1];
    cbn [fst]; congruence.
Qed.

Lemma create_grid_ok (n : Z) (w : world) (z : Z) :
  1 <= n ->
  fst (Generator._generate_seed self (Generator.seed self) w) = inr z ->
  exists g w',
    Generator.create_grid self n w = (inr g, w') /\
    assembled n g /\ Grid.seed g = Some z.
Proof.
  intros Hn Hseed. rewrite create_grid_unfold.
  destruct (Generator._generate_seed self _ w) as [[e | s] w1];
    cbn [fst] in Hseed; [discriminate |]. injection Hseed as ->.
  rewrite init_center. cbn [fst snd].
  apply (write_rows_assembled self n); try (cbn [length]; lia).
  apply set_seed_assembled, init_assembled, Hn.
Qed.

Lemma create_grid_empty (n : Z) (w : world) (z : Z) :
  n <= 0 ->
  fst (Generator._generate_seed self (Generator.seed self) w) = inr z ->
  fst (Generator.create_grid self n w) = inl Py.IndexError.
Proof.
  intros Hn Hseed. rewrite create_grid_unfold.
  destruct (Generator._generate_seed self _ w) as [[e | s] w1];
    cbn [fst] in Hseed; [discriminate |].
  assert (Hrows : Z.to_nat (n * 2 - 1) = 0%nat) by lia.
  destruct (Z.to_nat (n - 1)); cbn [Generator.write_rows];
    unfold mbind at 1, lift;
    cbn [Generator.write_row Generator.rotations Generator.set_all];
    unfold Grid.set at 1, Grid.set_seed, Grid.init; cbn [Grid.array];
    rewrite Hrows; cbn [replicate]; rewrite getitem_nil; reflexivity.
Qed.

End Assembly.

(** ** Runs that differ in nothing but the clock *)

Section Reseeding.

Context {RS : RandomSource}.

Lemma rand_only_ret {A} (a : A) : rand_only (ret a).
Proof. intros w1 w2 Hr. split; [reflexivity | exact Hr]. Qed.

Lemma rand_only_lift {A} (r : Py.result A) : rand_only (lift r).
Proof. intros w1 w2 Hr. split; [reflexivity | exact Hr]. Qed.

Lemma rand_only_bind {A B} (m : M A) (k : A -> M B) :
  rand_only m -> (forall a, rand_only (k a)) -> rand_only (mbind m k).
Proof.
  intros Hm Hk w1 w2 Hr. unfold mbind.
  destruct (Hm w1 w2 Hr) as [Hres Hrand].
  destruct (m w1) as [[e1 | a1] u1], (m w2) as [[e2 | a2] u2];
    cbn [fst snd] in Hres, Hrand; try discriminate.
  - injection Hres as ->. split; [reflexivity | exact Hrand].
  - injection Hres as ->. apply Hk, Hrand.
Qed.

Lemma rand_only_call_rule (rule : Rule) (above : list bool) :
  rand_only (call_rule rule above).
Proof.
  intros w1 w2 Hr. unfold call_rule. rewrite Hr.
  destruct (rule above (rand w2)). split; reflexivity.
Qed.

Lemma rand_only_map_rule (rule : Rule) (windows : list (list bool)) :
  rand_only (Generator.map_rule rule windows).
Proof.
  induction windows as [| above rest IH]; cbn [Generator.map_rule].
  - apply rand_only_ret.
  - apply rand_only_bind; [apply rand_only_call_rule |]. intros c.
    apply rand_only_bind; [exact IH |]. intros cells. apply rand_only_ret.
Qed.

Lemma rand_only_write_rows (self : Generator.t) (cx cy : Z) (turns : nat) :
  forall index row g,
    rand_only (Generator.write_rows self cx cy turns index row g).
Proof.
  induction turns as [| turns IH]; intros index row g;
    cbn [Generator.write_rows];
    (apply rand_only_bind; [apply rand_only_lift |]); intros g'.
  - apply rand_only_ret.
  - apply rand_only_bind; [apply rand_only_map_rule |]. intros row'.
    apply IH.
Qed.

Lemma create_grid_int_seed (s : Z) (rule : Rule) (n : Z) (w1 w2 : world) :
  same_run (Generator.create_grid (Generator.Make (SeedInt s) rule) n w1)
           (Generator.create_grid (Generator.Make (SeedInt s) rule) n w2).
Proof.
  rewrite !create_grid_unfold. cbn [Generator.seed Generator._generate_seed].
  unfold ret. apply rand_only_write_rows. reflexivity.
Qed.

End Reseeding.

(** ** The assembled grid *)

(** C1, as the program behaves.  For [n >= 1], whatever the rule, and for
    every seed that normalises to an integer (an integer, a string that is
    not empty, or no seed when the clock reads as a string that is not
    empty), [create_grid(n)] returns a grid of width and height [2n - 1]
    with centre [((2n-2)/2, (2n-2)/2)], and the cell at offset [(a, b)]
    from the centre equals the cell at offset [(-b, a)]. *)
Theorem create_grid_rotation_invariant {RS : RandomSource}
  (self : Generator.t) (n : Z) (w : world) (z : Z) :
  1 <= n ->
  fst (Generator._generate_seed self (Generator.seed self) w) = inr z ->
  exists g w',
    Generator.create_grid self n w = (inr g, w') /\
    Grid.width g = 2 * n - 1 /\ Grid.height g = 2 * n - 1 /\
    Grid.center g = ((2 * n - 2) / 2, (2 * n - 2) / 2) /\
    forall a b,
      - (n - 1) <= a <= n - 1 -> - (n - 1) <= b <= n - 1 ->
      exists value,
        Grid.get g (fst (Grid.center g) + a) (snd (Grid.center g) + b)
          = inr value /\
        Grid.get g (fst (Grid.center g) - b) (snd (Grid.center g) + a)
          = inr value.
Proof.
  intros Hn Hseed.
  destruct (create_grid_ok self n w z Hn Hseed)
    as (g & w' & Hrun & (Hwf & Hw & Hh & Hc & Hsym) & _).
  exists g, w'. split; [exact Hrun |]. split; [exact Hw |].
  split; [exact Hh |].
  assert (Hhalf : (2 * n - 2) / 2 = n - 1).
  { symmetry. apply Z.div_unique with (r := 0); lia. }
  split; [rewrite Hhalf; exact Hc |].
  intros a b Ha Hb. rewrite Hc. cbn [fst snd].
  exists (cell g (n - 1 + a) (n - 1 + b)). split.
  - apply get_inside; [exact Hwf | unfold inside; lia].
  - rewrite (Hsym a b Ha Hb).
    apply get_inside; [exact Hwf | unfold inside; lia].
Qed.

(** C9. For [n >= 1] the centre is [(n - 1, n - 1)] and, for a row
    [0 <= i <= n - 1] and a position [0 <= j <= 2i] in it, the four places
    written for that cell have both coordinates in [0, 2n - 2]; and no
    write of the assembly raises: [create_grid(n)] never ends in
    [IndexError]. *)
Theorem create_grid_writes_in_bounds {RS : RandomSource}
  (self : Generator.t) (n : Z) (w : world) :
  1 <= n ->
  Grid.center (Grid.init (n * 2 - 1) (n * 2 - 1) None) = (n - 1, n - 1) /\
  (forall i j,
     0 <= i <= n - 1 -> 0 <= j <= 2 * i ->
     Forall (fun p => 0 <= fst p <= 2 * n - 2 /\ 0 <= snd p <= 2 * n - 2)
            (Generator.rotations (n - 1) (n - 1) i (j - i))) /\
  fst (Generator.create_grid self n w) <> inl Py.IndexError.
Proof.
  intros Hn. split; [apply init_center |]. split.
  - intros i j Hi Hj. unfold Generator.rotations.
    repeat constructor; cbn [fst snd]; lia.
  - destruct (fst (Generator._generate_seed self (Generator.seed self) w))
      as [e | z] eqn:Hseed.
    + rewrite (create_grid_seed_error self n w e Hseed).
      apply generate_seed_exn in Hseed as ->. discriminate.
    + destruct (create_grid_ok self n w z Hn Hseed) as (g & w' & -> & _).
      discriminate.
Qed.

(** C6, as the program behaves.  For [n <= 0], [create_grid(n)] returns no
    grid: it raises the [ValueError] of the seed when the seed does not
    normalise, and otherwise the [IndexError] of its first write, the
    buffer being empty.  No check of [n] is made, so the failure is never
    of the kind [InvalidWedgeSizeError]. *)
Theorem create_grid_nonpositive {RS : RandomSource}
  (self : Generator.t) (n : Z) (w : world) :
  n <= 0 ->
  exists e,
    fst (Generator.create_grid self n w) = inl e /\
    e = match fst (Generator._generate_seed self (Generator.seed self) w) with
        | inl e' => e'
        | inr _ => Py.IndexError
        end /\
    kind_of e <> InvalidWedgeSizeError.
Proof.
  intros Hn.
  destruct (fst (Generator._generate_seed self (Generator.seed self) w))
    as [e | z] eqn:Hseed.
  - exists e. split; [apply create_grid_seed_error, Hseed |].
    split; [reflexivity |]. destruct e; discriminate.
  - exists Py.IndexError. split; [exact (create_grid_empty self n w z Hn Hseed) |].
    split; [reflexivity | discriminate].
Qed.

(** C5. With an integer seed [s], whatever the rule and [n], two runs of
    [create_grid(n)] end alike from any two states of the random source
    and any two readings of the clock: the same grid or the same
    exception, and the same state of the random source afterwards; for
    [n >= 1] both return one and the same grid, whose seed is [s]. *)
Theorem create_grid_reproducible {RS : RandomSource}
  (s : Z) (rule : Rule) (n : Z) (w1 w2 : world) :
  let self := Generator.Make (SeedInt s) rule in
  fst (Generator.create_grid self n w1) = fst (Generator.create_grid self n w2) /\
  rand (snd (Generator.create_grid self n w1))
    = rand (snd (Generator.create_grid self n w2)) /\
  (1 <= n ->
   exists g,
     fst (Generator.create_grid self n w1) = inr g /\
     fst (Generator.create_grid self n w2) = inr g /\
     Grid.seed g = Some s).
Proof.
  intros self.
  destruct (create_grid_int_seed s rule n w1 w2) as [Hres Hrand].
  split; [exact Hres |]. split; [exact Hrand |].
  intros Hn.
  destruct (create_grid_ok self n w1 s Hn eq_refl) as (g & w' & Hrun & _ & Hs).
  exists g. fold self in Hres. rewrite <- Hres, Hrun. auto.
Qed.

(** C8, as the program behaves.  [_generate_seed] returns an integer seed
    as it is; for a string that is not empty it returns the integer written
    by the decimal code points of its characters one after the other; and
    for [n >= 1] the grid [create_grid(n)] returns carries the integer the
    generator's seed normalises to. *)
Theorem generate_seed_normalizes {RS : RandomSource}
  (self : Generator.t) (w : world) :
  (forall z, Generator._generate_seed self (SeedInt z) w = (inr z, w)) /\
  (forall s,
     s <> EmptyString ->
     Generator._generate_seed self (SeedStr s) w
     = (inr (concat_decimal (map Py.ord (list_ascii_of_string s))), w)) /\
  (forall n z,
     1 <= n ->
     fst (Generator._generate_seed self (Generator.seed self) w) = inr z ->
     exists g w',
       Generator.create_grid self n w = (inr g, w') /\ Grid.seed g = Some z).
Proof.
  split; [reflexivity |]. split.
  - intros s Hs. cbn [Generator._generate_seed]. unfold lift.
    rewrite (to_int_value s Hs). reflexivity.
  - intros n z Hn Hseed.
    destruct (create_grid_ok self n w z Hn Hseed) as (g & w' & Hrun & _ & Hs).
    eauto.
Qed.

(** ** The rows the assembly consumes *)

(** The loop of [create_grid] writes the rows [generate] yields, in order:
    resuming the generator between two writes changes nothing, a write
    not touching the random source. *)
Lemma write_rows_generate {RS : RandomSource} (self : Generator.t)
  (cx cy : Z) (turns : nat) :
  forall index row g w rows w' g',
    Generator.generate_loop self turns row w = (inr rows, w') ->
    write_list cx cy index (row :: rows) g = inr g' ->
    Generator.write_rows self cx cy turns index row g w = (inr g', w').
Proof.
  induction turns as [| turns IH]; intros index row g w rows w' g' Hgen Hwrite;
    cbn [Generator.generate_loop] in Hgen;
    cbn [write_list] in Hwrite; cbn [Generator.write_rows];
    unfold mbind at 1, lift;
    destruct (Generator.write_row cx cy index 0 row g) as [e | g1];
    cbn [Py.bind] in Hwrite; try discriminate.
  - injection Hgen as <- <-. cbn [write_list] in Hwrite.
    injection Hwrite as <-. reflexivity.
  - unfold mbind at 1 in Hgen. unfold mbind at 1.
    destruct (Generator._calculate_row self row w) as [[e | row'] w1];
      [discriminate |].
    unfold mbind at 1 in Hgen.
    destruct (Generator.generate_loop self turns row' w1) as [[e | rows'] w2] eqn:Hloop;
      [discriminate |].
    injection Hgen as <- <-.
    exact (IH (index + 1) row' g1 w1 rows' w2 g' Hloop Hwrite).
Qed.

(** ** The program on inputs *)

(** [n = 1]: one cell, and it is set. *)
Example create_grid_one :
  fst (Generator.create_grid (demo_parity (SeedInt 42)) 1 demo_world)
  = inr (Grid.Make 1 1 (0, 0) (Some 42) [[true]]).
Proof. reflexivity. Qed.

(** [n = 2] with the parity rule: the rows are [[T]] and [[T, T, T]], and
    the nine cells of the grid are set. *)
Example generate_two :
  fst (Generator.generate (demo_parity (SeedInt 42)) 2 demo_world)
  = inr [[true]; [true; true; true]].
Proof. reflexivity. Qed.

Example create_grid_two :
  fst (Generator.create_grid (demo_parity (SeedInt 42)) 2 demo_world)
  = inr (Grid.Make 3 3 (1, 1) (Some 42)
           [[true; true; true]; [true; true; true]; [true; true; true]]).
Proof. reflexivity. Qed.

(** The seed ["ab"] is 97 followed by 98. *)
Example generate_seed_ab :
  fst (Generator._generate_seed (demo_parity SeedNone) (SeedStr "ab") demo_world)
  = inr 9798.
Proof. reflexivity. Qed.

(** ** Instances of the theorems *)

Lemma rule150randomized_suppression_witness :
  Rules.black [true; false; false] = true /\
  suppress_probability [true; false; false] = Qmake 1 2001 /\
  Rules.black [true; true; false] = false /\
  @Rules.rule150randomized lcg [true; true; false] 7 = (false, 7).
Proof.
  split; [reflexivity |]. split.
  - apply (proj1 (rule150randomized_suppression (RS := lcg)
                    [true; false; false] 7) eq_refl).
  - split; [reflexivity |].
    apply (proj2 (rule150randomized_suppression (RS := lcg)
                    [true; true; false] 7) eq_refl).
Defined.

Lemma grid_access_beyond_size_witness :
  (3 <= 3 \/ 3 <= 0) /\
  Grid.get (Grid.init 3 3 None) 3 0 = inl Py.IndexError /\
  Grid.set (Grid.init 3 3 None) 3 0 true = inl Py.IndexError.
Proof.
  split; [left; lia |].
  destruct (grid_access_beyond_size 3 3 3 0 None true) as (Hget & Hset & _);
    [left; lia |].
  split; [exact Hget | exact Hset].
Defined.

Lemma init_3_wf : grid_wf (Grid.init 3 3 None).
Proof.
  unfold grid_wf. cbn. split; [lia |]. split; [lia |].
  split; [reflexivity |]. repeat constructor.
Defined.

Lemma grid_negative_index_wraps_witness :
  grid_wf (Grid.init 3 3 None) /\ - 3 <= -1 < 3 /\ - 3 <= -2 < 3 /\
  Grid.get (Grid.init 3 3 None) (-1) (-2) = inr false /\
  Grid.set (Grid.init 3 3 None) (-1) (-2) true
  = inr (grid_update (Grid.init 3 3 None) 2 1 true).
Proof.
  split; [exact init_3_wf |]. split; [lia |]. split; [lia |].
  destruct (grid_negative_index_wraps (Grid.init 3 3 None) (-1) (-2) true
              init_3_wf) as (row & c & Hrow & Hc & Hget & Hset);
    [cbn; lia | cbn; lia |].
  split; [reflexivity | exact Hset].
Defined.

Lemma generate_row_lengths_witness :
  1 <= 4 /\
  exists rows w',
    Generator.generate (demo_randomized (SeedInt 42)) 4 demo_world
      = (inr rows, w') /\
    length rows = 4%nat.
Proof.
  split; [lia |].
  destruct (generate_row_lengths (demo_randomized (SeedInt 42)) 4 demo_world)
    as (rows & w' & Hrun & Hlen & _); [lia |].
  exists rows, w'. split; [exact Hrun | exact Hlen].
Defined.

Lemma create_grid_rotation_invariant_witness :
  1 <= 3 /\
  fst (Generator._generate_seed (demo_randomized (SeedStr "ab"))
         (SeedStr "ab") demo_world) = inr 9798 /\
  exists g w',
    Generator.create_grid (demo_randomized (SeedStr "ab")) 3 demo_world
      = (inr g, w') /\
    Grid.width g = 5 /\ Grid.height g = 5.
Proof.
  split; [lia |]. split; [reflexivity |].
  destruct (create_grid_rotation_invariant (demo_randomized (SeedStr "ab"))
              3 demo_world 9798) as (g & w' & Hrun & Hw & Hh & _);
    [lia | reflexivity |].
  exists g, w'. split; [exact Hrun |]. split; [exact Hw | exact Hh].
Defined.

Lemma create_grid_writes_in_bounds_witness :
  1 <= 3 /\
  fst (Generator.create_grid (demo_parity (SeedInt 42)) 3 demo_world)
  <> inl Py.IndexError.
Proof.
  split; [lia |].
  apply (create_grid_writes_in_bounds (demo_parity (SeedInt 42)) 3 demo_world).
  lia.
Defined.

Lemma create_grid_nonpositive_witness :
  0 <= 0 /\
  exists e,
    fst (Generator.create_grid (demo_parity (SeedInt 42)) 0 demo_world) = inl e.
Proof.
  split; [lia |].
  destruct (create_grid_nonpositive (demo_parity (SeedInt 42)) 0 demo_world)
    as (e & Hrun & _); [lia |].
  exists e. exact Hrun.
Defined.

Lemma create_grid_reproducible_witness :
  1 <= 3 /\
  exists g,
    fst (Generator.create_grid (demo_randomized (SeedInt 42)) 3 demo_world)
      = inr g /\
    fst (Generator.create_grid (demo_randomized (SeedInt 42)) 3
           (@World lcg 99 "1700000000.0")) = inr g.
Proof.
  split; [lia |].
  destruct (create_grid_reproducible (RS := lcg) 42 Rules.rule150randomized 3
              demo_world (@World lcg 99 "1700000000.0"))
    as (_ & _ & Hsame).
  destruct (Hsame ltac:(lia)) as (g & H1 & H2 & _).
  exists g. split; [exact H1 | exact H2].
Defined.

Lemma generate_seed_normalizes_witness :
  "ab"%string <> EmptyString /\
  Generator._generate_seed (demo_parity SeedNone) (SeedStr "ab") demo_world
  = (inr (concat_decimal [97; 98]), demo_world).
Proof.
  split; [discriminate |].
  apply (proj1 (proj2 (generate_seed_normalizes (demo_parity SeedNone)
                         demo_world)) "ab"%string).
  discriminate.
Defined.

(** ** Where the stated claims fail *)

(** C1 as stated. [n = 1] and the empty string as seed: the seed does not
    normalise, and no grid is returned. *)
Lemma create_grid_empty_seed_no_grid :
  1 <= 1 /\
  fst (Generator.create_grid (demo_parity (SeedStr EmptyString)) 1 demo_world)
  = inl Py.ValueError /\
  ~ exists g,
      fst (Generator.create_grid (demo_parity (SeedStr EmptyString)) 1 demo_world)
      = inr g.
Proof.
  split; [lia |]. split; [reflexivity |]. intros [g Hg]. discriminate Hg.
Qed.

(** C6 as stated. [n = 0]: the failure is the [IndexError] of the first
    write, an out-of-bounds error and not an invalid-size one. *)
Lemma create_grid_zero_index_error :
  0 <= 0 /\
  fst (Generator.create_grid (demo_parity (SeedInt 42)) 0 demo_world)
  = inl Py.IndexError /\
  kind_of Py.IndexError = OutOfBoundsError /\
  kind_of Py.IndexError <> InvalidWedgeSizeError.
Proof.
  split; [lia |]. split; [reflexivity |]. split; [reflexivity | discriminate].
Qed.

(** C8 as stated. The empty string is a string seed for which
    [_generate_seed] returns no integer: [int('')] raises. *)
Lemma generate_seed_empty_string :
  Generator._generate_seed (demo_parity SeedNone) (SeedStr EmptyString) demo_world
  = (inl Py.ValueError, demo_world) /\
  ~ exists z,
      fst (Generator._generate_seed (demo_parity SeedNone) (SeedStr EmptyString)
             demo_world) = inr z.
Proof.
  split; [reflexivity |]. intros [z Hz]. discriminate Hz.
Qed.

(** ** More on the grid buffer *)

Lemma norm_index_out (len : nat) (i : Z) :
  index_ok (Z.of_nat len) i = false -> Py.norm_index len i = None.
Proof.
  unfold index_ok, Py.norm_index. intros Hi.
  destruct (Z.leb_spec (- Z.of_nat len) i), (Z.ltb_spec i (Z.of_nat len));
    try discriminate; destruct (Z.ltb_spec i 0); cbn zeta;
    match goal with
    | |- context [(0 <=? ?j) && (?j <? ?k)] =>
        destruct (Z.leb_spec 0 j); destruct (Z.ltb_spec j k);
        try reflexivity; lia
    end.
Qed.

Lemma index_ok_true (len i : Z) :
  index_ok len i = true <-> - len <= i < len.
Proof. unfold index_ok. rewrite andb_true_iff, Z.leb_le, Z.ltb_lt. tauto. Qed.

Lemma getitem_index_ok {A} (l : list A) (i : Z) :
  if index_ok (Z.of_nat (length l)) i
  then exists v, l !! Z.to_nat (i mod Z.of_nat (length l)) = Some v /\
                 Py.getitem l i = inr v
  else Py.getitem l i = inl Py.IndexError.
Proof.
  destruct (index_ok _ i) eqn:Hi.
  - apply index_ok_true in Hi. unfold Py.getitem.
    rewrite (norm_index_mod _ _ Hi).
    destruct (l !! _) as [v |] eqn:Hk; [eauto |].
    apply lookup_ge_None in Hk.
    pose proof (Z.mod_pos_bound i (Z.of_nat (length l))). lia.
  - unfold Py.getitem. rewrite (norm_index_out _ _ Hi). reflexivity.
Qed.

Lemma setitem_index_ok {A} (l : list A) (i : Z) (v : A) :
  Py.setitem l i v
  = if index_ok (Z.of_nat (length l)) i
    then inr (<[Z.to_nat (i mod Z.of_nat (length l)) := v]> l)
    else inl Py.IndexError.
Proof.
  destruct (index_ok _ i) eqn:Hi; unfold Py.setitem.
  - apply index_ok_true in Hi. rewrite (norm_index_mod _ _ Hi). reflexivity.
  - rewrite (norm_index_out _ _ Hi). reflexivity.
Qed.

Lemma grid_wf_rows (g : Grid.t) :
  grid_wf g -> Z.of_nat (length (Grid.array g)) = Grid.height g.
Proof. intros (_ & Hh & Hrows & _). lia. Qed.

Lemma index_ok_to_nat (z i : Z) :
  index_ok (Z.of_nat (Z.to_nat z)) i = index_ok z i.
Proof.
  unfold index_ok.
  destruct (Z.leb_spec (- Z.of_nat (Z.to_nat z)) i),
           (Z.ltb_spec i (Z.of_nat (Z.to_nat z))),
           (Z.leb_spec (- z) i), (Z.ltb_spec i z); try reflexivity; lia.
Qed.

Lemma grid_access_wrap (g : Grid.t) (x y : Z) (value : bool) :
  grid_wf g ->
  index_ok (Grid.width g) x = true -> index_ok (Grid.height g) y = true ->
  exists row c,
    Grid.array g !! Z.to_nat (y mod Grid.height g) = Some row /\
    row !! Z.to_nat (x mod Grid.width g) = Some c /\
    Grid.get g x y = inr c /\
    Grid.set g x y value
    = inr (grid_update g (Z.to_nat (x mod Grid.width g))
             (Z.to_nat (y mod Grid.height g)) value).
Proof.
  intros Hwf Hx Hy. pose proof (grid_wf_rows g Hwf) as Hlen.
  pose proof (getitem_index_ok (Grid.array g) y) as Hrow.
  rewrite Hlen, Hy in Hrow. destruct Hrow as (row & Hj & Hgety).
  pose proof (grid_wf_row g _ row Hwf Hj) as Hw.
  pose proof (getitem_index_ok row x) as Hcell.
  rewrite Hw, Hx in Hcell. destruct Hcell as (c & Hi & Hgetx).
  exists row, c. split; [exact Hj |]. split; [exact Hi |].
  unfold Grid.get, Grid.set, grid_update.
  rewrite Hgety. cbn [Py.bind]. rewrite Hgetx.
  rewrite !setitem_index_ok, Hw, Hx. cbn [Py.bind].
  rewrite setitem_index_ok, Hlen, Hy, Hj. split; reflexivity.
Qed.

Lemma grid_access_out (g : Grid.t) (x y : Z) (value : bool) :
  grid_wf g ->
  index_ok (Grid.width g) x && index_ok (Grid.height g) y = false ->
  Grid.get g x y = inl Py.IndexError /\
  Grid.set g x y value = inl Py.IndexError.
Proof.
  intros Hwf Hout. pose proof (grid_wf_rows g Hwf) as Hlen.
  unfold Grid.get, Grid.set.
  pose proof (getitem_index_ok (Grid.array g) y) as Hy. rewrite Hlen in Hy.
  destruct (index_ok (Grid.height g) y).
  - destruct Hy as (row & Hj & ->). cbn [Py.bind].
    pose proof (grid_wf_row g _ row Hwf Hj) as Hrow.
    pose proof (getitem_index_ok row x) as Hx.
    rewrite setitem_index_ok, Hrow in *.
    rewrite andb_true_r in Hout. rewrite Hout in *. rewrite Hx.
    split; reflexivity.
  - rewrite Hy. split; reflexivity.
Qed.

(** X1. On a grid of [width] columns and [height] rows, [get] and [set]
    succeed exactly for a column in [-width, width) and a row in
    [-height, height); for any other pair both raise [IndexError]. *)
Theorem grid_access_range (g : Grid.t) (x y : Z) (value : bool) :
  grid_wf g ->
  if index_ok (Grid.width g) x && index_ok (Grid.height g) y
  then (exists c, Grid.get g x y = inr c) /\
       (exists g', Grid.set g x y value = inr g')
  else Grid.get g x y = inl Py.IndexError /\
       Grid.set g x y value = inl Py.IndexError.
Proof.
  intros Hwf.
  destruct (index_ok (Grid.width g) x && index_ok (Grid.height g) y) eqn:Hok.
  - apply andb_true_iff in Hok as [Hx Hy].
    destruct (grid_access_wrap g x y value Hwf Hx Hy)
      as (row & c & _ & _ & Hget & Hset).
    eauto.
  - exact (grid_access_out g x y value Hwf Hok).
Qed.

Lemma getitem_replicate {A} (n : nat) (v : A) (i : Z) :
  Py.getitem (replicate n v) i
  = if index_ok (Z.of_nat n) i then inr v else inl Py.IndexError.
Proof.
  pose proof (getitem_index_ok (replicate n v) i) as H.
  rewrite length_replicate in H.
  destruct (index_ok (Z.of_nat n) i); [| exact H].
  destruct H as (v' & Hv & ->).
  apply lookup_replicate in Hv as [-> _]. reflexivity.
Qed.

(** X2. A grid as [Grid(w, h)] leaves it reads [False] at every cell it
    has, a cell being a column in [-w, w) and a row in [-h, h); reading
    anywhere else raises [IndexError].  For a negative [w] or [h] the grid
    has no cell at all. *)
Theorem grid_init_reads (w h x y : Z) (s : option Z) :
  Grid.get (Grid.init w h s) x y
  = if index_ok w x && index_ok h y then inr false else inl Py.IndexError.
Proof.
  unfold Grid.get, Grid.init. cbn [Grid.array].
  rewrite getitem_replicate, index_ok_to_nat.
  destruct (index_ok h y); cbn [Py.bind].
  - rewrite getitem_replicate, index_ok_to_nat, andb_true_r. reflexivity.
  - rewrite andb_false_r. reflexivity.
Qed.

Lemma mod_to_nat_eq (a b m : Z) :
  0 < m ->
  Z.to_nat (a mod m) = Z.to_nat (b mod m) <-> a mod m = b mod m.
Proof.
  intros Hm. pose proof (Z.mod_pos_bound a m Hm).
  pose proof (Z.mod_pos_bound b m Hm). lia.
Qed.

Lemma grid_update_fields (g : Grid.t) (i j : nat) (value : bool) :
  Grid.width (grid_update g i j value) = Grid.width g /\
  Grid.height (grid_update g i j value) = Grid.height g /\
  Grid.center (grid_update g i j value) = Grid.center g /\
  Grid.seed (grid_update g i j value) = Grid.seed g.
Proof. repeat split. Qed.

(** X3. Writing a cell and reading it back.  On a grid of [width] columns
    and [height] rows, [set(x, y, value)] at a place the grid has succeeds
    and keeps the width, the height, the centre, the seed and the shape of
    the buffer; afterwards [get] returns [value] at that cell, under any
    of its coordinates, and what it returned before at every other
    cell. *)
Theorem grid_set_then_get (g : Grid.t) (x y x' y' : Z) (value : bool) :
  grid_wf g ->
  - Grid.width g <= x < Grid.width g ->
  - Grid.height g <= y < Grid.height g ->
  - Grid.width g <= x' < Grid.width g ->
  - Grid.height g <= y' < Grid.height g ->
  exists g',
    Grid.set g x y value = inr g' /\ grid_wf g' /\
    Grid.width g' = Grid.width g /\ Grid.height g' = Grid.height g /\
    Grid.center g' = Grid.center g /\ Grid.seed g' = Grid.seed g /\
    Grid.get g' x' y'
    = if (x' mod Grid.width g =? x mod Grid.width g)
         && (y' mod Grid.height g =? y mod Grid.height g)
      then inr value else Grid.get g x' y'.
Proof.
  intros Hwf Hx Hy Hx' Hy'.
  set (i := Z.to_nat (x mod Grid.width g)).
  set (j := Z.to_nat (y mod Grid.height g)).
  pose proof (grid_update_wf g i j value Hwf) as Hwf'.
  destruct (grid_access_wrap g x y value Hwf) as (row & c & Hj & Hi & _ & Hset);
    [apply index_ok_true; lia .. |].
  destruct (grid_access_wrap g x' y' value Hwf)
    as (row1 & c1 & Hj1 & Hi1 & Hget1 & _); [apply index_ok_true; lia .. |].
  destruct (grid_access_wrap (grid_update g i j value) x' y' value Hwf')
    as (row2 & c2 & Hj2 & Hi2 & Hget2 & _); [apply index_ok_true; cbn; lia .. |].
  exists (grid_update g i j value). split; [exact Hset |].
  split; [exact Hwf' |]. do 4 (split; [reflexivity |]).
  rewrite Hget2, Hget1.
  cbn [grid_update Grid.width Grid.height Grid.array] in Hj2, Hi2.
  fold i j in Hj, Hi. rewrite Hj in Hj2.
  destruct (Z.eqb_spec (y' mod Grid.height g) (y mod Grid.height g)) as [Ey | Ny].
  - rewrite Ey in Hj2, Hj1. fold j in Hj2, Hj1.
    rewrite list_lookup_insert_eq in Hj2 by (apply lookup_lt_Some in Hj; exact Hj).
    injection Hj2 as <-. assert (row1 = row) as -> by congruence.
    destruct (Z.eqb_spec (x' mod Grid.width g) (x mod Grid.width g)) as [Ex | Nx];
      cbn [andb].
    + rewrite Ex in Hi2. fold i in Hi2.
      rewrite list_lookup_insert_eq in Hi2 by (apply lookup_lt_Some in Hi; exact Hi).
      congruence.
    + rewrite list_lookup_insert_ne in Hi2
        by (unfold i; rewrite mod_to_nat_eq by lia; congruence).
      congruence.
  - rewrite list_lookup_insert_ne in Hj2
      by (unfold j; rewrite mod_to_nat_eq by lia; congruence).
    rewrite andb_false_r. congruence.
Qed.

Lemma grid_set_eq (g : Grid.t) (x y : Z) (value : bool) :
  grid_wf g ->
  Grid.set g x y value
  = if index_ok (Grid.width g) x && index_ok (Grid.height g) y
    then inr (grid_update g (Z.to_nat (x mod Grid.width g))
                (Z.to_nat (y mod Grid.height g)) value)
    else inl Py.IndexError.
Proof.
  intros Hwf.
  destruct (index_ok (Grid.width g) x && index_ok (Grid.height g) y) eqn:Hok.
  - apply andb_true_iff in Hok as [Hx Hy].
    destruct (grid_access_wrap g x y value Hwf Hx Hy)
      as (row & c & _ & _ & _ & Hset).
    exact Hset.
  - apply (grid_access_out g x y value Hwf Hok).
Qed.

Lemma grid_update_twice (g : Grid.t) (i j : nat) (v v' : bool) :
  grid_update (grid_update g i j v) i j v' = grid_update g i j v'.
Proof.
  unfold grid_update. cbn [Grid.width Grid.height Grid.center Grid.seed Grid.array].
  destruct (Grid.array g !! j) as [row |] eqn:Hj.
  - rewrite list_lookup_insert_eq by (apply lookup_lt_Some in Hj; exact Hj).
    rewrite !list_insert_insert_eq. reflexivity.
  - rewrite Hj. reflexivity.
Qed.

Lemma grid_update_comm (g : Grid.t) (i j i' j' : nat) (v v' : bool) :
  i <> i' \/ j <> j' ->
  grid_update (grid_update g i j v) i' j' v'
  = grid_update (grid_update g i' j' v') i j v.
Proof.
  intros Hne. unfold grid_update.
  cbn [Grid.width Grid.height Grid.center Grid.seed Grid.array].
  f_equal. destruct (decide (j = j')) as [<- | Hj].
  - destruct (Grid.array g !! j) as [row |] eqn:Hrow.
    + rewrite !list_lookup_insert_eq by (apply lookup_lt_Some in Hrow; exact Hrow).
      rewrite !list_insert_insert_eq. f_equal.
      apply list_insert_insert_ne. destruct Hne; congruence.
    + rewrite Hrow. reflexivity.
  - destruct (Grid.array g !! j) as [row |] eqn:Hrow,
             (Grid.array g !! j') as [row' |] eqn:Hrow';
      rewrite ?list_lookup_insert_ne by congruence;
      rewrite ?Hrow, ?Hrow'; try reflexivity.
    apply list_insert_insert_ne. congruence.
Qed.

(** X4. Two writes in a row.  Writing a cell twice leaves what the second
    write alone leaves; two writes at different cells, or of the same
    value, give the same grid in either order.  A write that raises makes
    the pair raise, so both hold for any coordinates. *)
Theorem grid_set_twice (g : Grid.t) (x y x' y' : Z) (v v' : bool) :
  grid_wf g ->
  Py.bind (Grid.set g x y v) (fun g1 => Grid.set g1 x y v')
  = Grid.set g x y v' /\
  (x mod Grid.width g <> x' mod Grid.width g \/
   y mod Grid.height g <> y' mod Grid.height g \/ v = v' ->
   Py.bind (Grid.set g x y v) (fun g1 => Grid.set g1 x' y' v')
   = Py.bind (Grid.set g x' y' v') (fun g2 => Grid.set g2 x y v)).
Proof.
  intros Hwf.
  assert (Hup : forall i j u, grid_wf (grid_update g i j u))
    by (intros; apply grid_update_wf, Hwf).
  split.
  - rewrite !(grid_set_eq g) by exact Hwf.
    destruct (index_ok (Grid.width g) x && index_ok (Grid.height g) y) eqn:Hok;
      [| reflexivity].
    cbn [Py.bind]. rewrite grid_set_eq by apply Hup.
    cbn [grid_update Grid.width Grid.height]. rewrite Hok.
    fold (grid_update g (Z.to_nat (x mod Grid.width g))
            (Z.to_nat (y mod Grid.height g)) v).
    rewrite grid_update_twice. reflexivity.
  - intros Hne. rewrite !(grid_set_eq g) by exact Hwf.
    destruct (index_ok (Grid.width g) x && index_ok (Grid.height g) y) eqn:Hok,
             (index_ok (Grid.width g) x' && index_ok (Grid.height g) y') eqn:Hok';
      cbn [Py.bind]; rewrite ?grid_set_eq by apply Hup;
      cbn [grid_update Grid.width Grid.height]; rewrite ?Hok, ?Hok';
      try reflexivity.
    fold (grid_update g (Z.to_nat (x mod Grid.width g))
            (Z.to_nat (y mod Grid.height g)) v).
    fold (grid_update g (Z.to_nat (x' mod Grid.width g))
            (Z.to_nat (y' mod Grid.height g)) v').
    apply andb_true_iff in Hok as [Hx Hy], Hok' as [Hx' Hy'].
    apply index_ok_true in Hx, Hy, Hx', Hy'.
    destruct (decide (Z.to_nat (x mod Grid.width g) = Z.to_nat (x' mod Grid.width g)
                      /\ Z.to_nat (y mod Grid.height g) = Z.to_nat (y' mod Grid.height g)))
      as [[Ei Ej] | Hdiff].
    + rewrite mod_to_nat_eq in Ei by lia. rewrite mod_to_nat_eq in Ej by lia.
      destruct Hne as [H | [H | ->]]; [congruence | congruence |].
      rewrite Ei, Ej. reflexivity.
    + f_equal. apply grid_update_comm.
      destruct (decide (Z.to_nat (x mod Grid.width g)
                        = Z.to_nat (x' mod Grid.width g))); [right | left]; tauto.
Qed.

(** ** More on seeds *)

Lemma to_int_outcome (item : string) :
  Generator.to_int item
  = match item with
    | EmptyString => inl Py.ValueError
    | _ => inr (concat_decimal (map Py.ord (list_ascii_of_string item)))
    end.
Proof.
  destruct item as [| c r]; [reflexivity |]. apply to_int_value. discriminate.
Qed.

(** X5. What [_generate_seed] does in each case.  It never changes the
    world.  With no seed it reads the clock and returns the integer written
    by the decimal code points of the characters of the time's string form;
    it raises only [ValueError], and only when the string it has to
    convert, the seed or the time, is empty. *)
Theorem generate_seed_outcome {RS : RandomSource}
  (self : Generator.t) (seed : seed_value) (w : world) :
  snd (Generator._generate_seed self seed w) = w /\
  (seed = SeedNone -> clock w <> EmptyString ->
   fst (Generator._generate_seed self seed w)
   = inr (concat_decimal (map Py.ord (list_ascii_of_string (clock w))))) /\
  (forall e,
     fst (Generator._generate_seed self seed w) = inl e <->
     e = Py.ValueError /\
     (seed = SeedStr EmptyString \/
      seed = SeedNone /\ clock w = EmptyString)).
Proof.
  split; [destruct seed; reflexivity |]. split.
  - intros -> Hclock. cbn. apply to_int_value, Hclock.
  - intros e. destruct seed as [| z | s]; cbn; rewrite ?to_int_outcome.
    + destruct (clock w); split.
      * intros [= <-]. auto.
      * intros [-> _]. reflexivity.
      * discriminate.
      * intros [_ [H | [_ H]]]; discriminate.
    + split; [discriminate |]. intros [_ [H | [H _]]]; discriminate.
    + destruct s; split.
      * intros [= <-]. auto.
      * intros [-> _]. reflexivity.
      * discriminate.
      * intros [_ [H | [H _]]]; discriminate.
Qed.

Lemma write_rows_rule {RS : RandomSource} (self self' : Generator.t)
  (cx cy : Z) (turns : nat) :
  Generator.rule self = Generator.rule self' ->
  forall index row g w,
    Generator.write_rows self cx cy turns index row g w
    = Generator.write_rows self' cx cy turns index row g w.
Proof.
  intros Hrule. induction turns as [| turns IH]; intros index row g w;
    cbn [Generator.write_rows]; [reflexivity |].
  unfold mbind at 1 3. destruct (lift _ w) as [[e | g1] w1]; [reflexivity |].
  unfold mbind at 1 2, Generator._calculate_row. rewrite Hrule.
  destruct (Generator.map_rule _ _ w1) as [[e | row'] w2]; [reflexivity |].
  apply IH.
Qed.

(** X6. [create_grid] uses the seed through the integer it normalises to
    and through nothing else: two generators with the same rule whose seeds
    normalise alike, such as a string and the integer it stands for, end
    alike, grid and world; and a string seed normalises like the same
    string after a NUL character, so seeds do collide. *)
Theorem create_grid_seed_value {RS : RandomSource}
  (seed1 seed2 : seed_value) (rule : Rule) (n : Z) (w : world) :
  (fst (Generator._generate_seed (Generator.Make seed1 rule) seed1 w)
   = fst (Generator._generate_seed (Generator.Make seed2 rule) seed2 w) ->
   Generator.create_grid (Generator.Make seed1 rule) n w
   = Generator.create_grid (Generator.Make seed2 rule) n w) /\
  (forall s,
     s <> EmptyString ->
     Generator._generate_seed (Generator.Make seed1 rule)
       (SeedStr (String zero s)) w
     = Generator._generate_seed (Generator.Make seed1 rule) (SeedStr s) w).
Proof.
  split.
  - intros Hseed. rewrite !create_grid_unfold. cbn [Generator.seed].
    assert (H1 : snd (Generator._generate_seed (Generator.Make seed1 rule) seed1 w) = w)
      by (destruct seed1; reflexivity).
    assert (H2 : snd (Generator._generate_seed (Generator.Make seed2 rule) seed2 w) = w)
      by (destruct seed2; reflexivity).
    destruct (Generator._generate_seed (Generator.Make seed1 rule) seed1 w)
      as [r1 w1].
    destruct (Generator._generate_seed (Generator.Make seed2 rule) seed2 w)
      as [r2 w2].
    cbn [fst snd] in *. subst. destruct r2 as [e | s]; [reflexivity |].
    apply write_rows_rule. reflexivity.
  - intros s Hs. cbn [Generator._generate_seed]. unfold lift.
    rewrite !to_int_value by (try discriminate; exact Hs).
    reflexivity.
Qed.

(** ** More on the rows *)

Section MoreRows.

Context {RS : RandomSource}.
Variable self : Generator.t.

Lemma map_rule_clock (rule : Rule) (windows : list (list bool)) (w : world) :
  clock (snd (Generator.map_rule rule windows w)) = clock w.
Proof.
  revert w. induction windows as [| above rest IH]; intros w; [reflexivity |].
  cbn [Generator.map_rule]. unfold mbind at 1, call_rule.
  destruct (rule above (rand w)) as [c r].
  specialize (IH {| rand := r; clock := clock w |}). unfold mbind, ret.
  destruct (Generator.map_rule rule rest _) as [[e | cells] w1]; exact IH.
Qed.

Lemma generate_loop_clock (turns : nat) (row : list bool) (w : world) :
  clock (snd (Generator.generate_loop self turns row w)) = clock w.
Proof.
  revert row w. induction turns as [| turns IH]; intros row w; [reflexivity |].
  cbn [Generator.generate_loop]. unfold mbind at 1, Generator._calculate_row.
  pose proof (map_rule_clock (Generator.rule self) (Generator._above row) w) as Hc.
  destruct (Generator.map_rule _ _ w) as [[e | row'] w1]; [exact Hc |].
  specialize (IH row' w1). unfold mbind, ret.
  destruct (Generator.generate_loop self turns row' w1) as [[e | rows] w2];
    cbn [snd] in *; congruence.
Qed.

Lemma generate_loop_prefix (a b : nat) :
  forall row w rows w',
    Generator.generate_loop self (a + b) row w = (inr rows, w') ->
    exists w1, Generator.generate_loop self a row w = (inr (take a rows), w1).
Proof.
  induction a as [| a IH]; intros row w rows w' Hrun.
  - exists w. reflexivity.
  - cbn [Nat.add Generator.generate_loop] in *. unfold mbind at 1 in Hrun.
    unfold mbind at 1.
    destruct (Generator._calculate_row self row w) as [[e | row'] w1];
      [discriminate |].
    unfold mbind at 1 in Hrun. unfold mbind at 1.
    destruct (Generator.generate_loop self (a + b) row' w1)
      as [[e | rest] w2] eqn:Hrest; [discriminate |].
    injection Hrun as <- <-.
    destruct (IH row' w1 rest w2 Hrest) as (w3 & ->).
    exists w3. reflexivity.
Qed.

End MoreRows.

(** X7. [generate(n)] for any integer [n]: it never raises, never touches
    the clock, and yields [n] rows when [n >= 1] and one row otherwise,
    the first [yield] coming before the count is looked at; for [n <= 1]
    the rows are [[True]] alone and the world is as it was. *)
Theorem generate_any_count {RS : RandomSource}
  (self : Generator.t) (n : Z) (w : world) :
  exists rows w',
    Generator.generate self n w = (inr rows, w') /\
    length rows = Z.to_nat (Z.max n 1) /\
    clock w' = clock w /\
    (n <= 1 -> rows = [[true]] /\ w' = w).
Proof.
  unfold Generator.generate, mbind.
  pose proof (generate_loop_clock self (Z.to_nat (n - 1)) [true] w) as Hclock.
  destruct (generate_loop_total self (Z.to_nat (n - 1)) [true] w)
    as (rows & w' & Hrun & Hlen & _).
  rewrite Hrun in *. exists ([true] :: rows), w'. unfold ret.
  split; [reflexivity |]. split; [cbn [length]; lia |].
  split; [exact Hclock |].
  intros Hn. replace (Z.to_nat (n - 1)) with 0%nat in Hrun by lia.
  cbn in Hrun. injection Hrun as <- <-. auto.
Qed.

(** X8. A longer run starts like a shorter one: from the same world, for
    [1 <= n <= m], the rows of [generate(n)] are the first [n] rows of
    [generate(m)]. *)
Theorem generate_prefix {RS : RandomSource}
  (self : Generator.t) (n m : Z) (w : world) :
  1 <= n <= m ->
  exists rows w' w1,
    Generator.generate self m w = (inr rows, w') /\
    Generator.generate self n w = (inr (take (Z.to_nat n) rows), w1).
Proof.
  intros Hnm. unfold Generator.generate, mbind.
  destruct (generate_loop_total self (Z.to_nat (m - 1)) [true] w)
    as (rows & w' & Hrun & _).
  rewrite Hrun.
  replace (Z.to_nat (m - 1)) with (Z.to_nat (n - 1) + Z.to_nat (m - n))%nat
    in Hrun by lia.
  destruct (generate_loop_prefix self _ _ _ _ _ _ Hrun) as (w1 & ->).
  exists ([true] :: rows), w', w1. unfold ret. split; [reflexivity |].
  replace (Z.to_nat n) with (S (Z.to_nat (n - 1))) by lia. reflexivity.
Qed.

(** ** The generator, call by call *)

Lemma last_cons_default {A} (l : list A) (a d : A) :
  List.last (a :: l) d = List.last l a.
Proof.
  revert a d. induction l as [| b l IH]; intros a d; [reflexivity |].
  change (List.last (a :: b :: l) d) with (List.last (b :: l) d).
  rewrite (IH b d), (IH b a). reflexivity.
Qed.

Section Protocol.

Context {RS : RandomSource}.
Variable self : Generator.t.

Lemma pull_S (calls : nat) (gen : generator) :
  pull self (S calls) gen
  = mbind (generate_next self gen) (fun step =>
      match step with
      | (Some row, gen') =>
          mbind (pull self calls gen') (fun rest =>
          ret (row :: fst rest, snd rest))
      | (None, gen') => ret ([], gen')
      end).
Proof. reflexivity. Qed.

Lemma pull_unbounded (calls : nat) :
  forall row w rows w',
    Generator.generate_loop self calls row w = (inr rows, w') ->
    pull self calls (GenLoop row None) w
    = (inr (rows, GenLoop (List.last rows row) None), w').
Proof.
  induction calls as [| calls IH]; intros row w rows w' Hrun.
  - cbn in Hrun. injection Hrun as <- <-. reflexivity.
  - cbn [Generator.generate_loop] in Hrun. cbn [pull generate_next].
    unfold mbind at 1 in Hrun. unfold mbind at 1 2.
    destruct (Generator._calculate_row self row w) as [[e | row'] w1];
      [discriminate |].
    unfold ret at 1. unfold mbind at 1 in Hrun. unfold mbind at 1.
    destruct (Generator.generate_loop self calls row' w1)
      as [[e | rest] w2] eqn:Hrest; [discriminate |].
    injection Hrun as <- <-. rewrite (IH row' w1 rest w2 Hrest).
    unfold ret. cbn [fst snd]. rewrite last_cons_default. reflexivity.
Qed.

Lemma pull_bounded (turns : nat) :
  forall extra row w rows w',
    Generator.generate_loop self turns row w = (inr rows, w') ->
    pull self (S (turns + extra)) (GenLoop row (Some turns)) w
    = (inr (rows, GenDone), w').
Proof.
  induction turns as [| turns IH]; intros extra row w rows w' Hrun.
  - cbn in Hrun. injection Hrun as <- <-. reflexivity.
  - cbn [Generator.generate_loop] in Hrun.
    cbn [Nat.add]. rewrite pull_S. cbn [generate_next].
    unfold mbind at 1 in Hrun. unfold mbind at 1 2.
    destruct (Generator._calculate_row self row w) as [[e | row'] w1];
      [discriminate |].
    unfold ret at 1. unfold mbind at 1 in Hrun. unfold mbind at 1.
    destruct (Generator.generate_loop self turns row' w1)
      as [[e | rest] w2] eqn:Hrest; [discriminate |].
    injection Hrun as <- <-.
    rewrite (IH extra row' w1 rest w2 Hrest). reflexivity.
Qed.

End Protocol.

(** X9. A generator made by [generate()] with no count never stops: [k]
    calls of [next] give [k] rows and leave it suspended in its loop, and
    for [k >= 1] these rows, and the world afterwards, are those of
    [generate(k)]. *)
Theorem generate_unbounded {RS : RandomSource}
  (self : Generator.t) (k : nat) (w : world) :
  (1 <= k)%nat ->
  exists rows w' row,
    Generator.generate self (Z.of_nat k) w = (inr rows, w') /\
    pull self k (GenStart None) w = (inr (rows, GenLoop row None), w') /\
    length rows = k /\ List.last rows [] = row.
Proof.
  intros Hk. destruct k as [| k]; [lia |].
  unfold Generator.generate, mbind.
  replace (Z.to_nat (Z.of_nat (S k) - 1)) with k by lia.
  destruct (generate_loop_total self k [true] w) as (rows & w' & Hrun & Hlen & _).
  rewrite Hrun. exists ([true] :: rows), w', (List.last rows [true]).
  unfold ret. split; [reflexivity |]. split.
  - cbn [pull generate_next]. unfold mbind at 1, ret at 1.
    unfold mbind. rewrite (pull_unbounded self k _ _ _ _ Hrun). reflexivity.
  - split; [cbn [length]; lia |]. apply last_cons_default.
Qed.

(** X10. A generator made by [generate(n)] yields, call by call, the rows
    of the list [generate] stands for here and then stops: any number of
    calls greater than the number of rows gives all the rows, ends in
    [StopIteration] and leaves the world as the list does. *)
Theorem generate_exhausts {RS : RandomSource}
  (self : Generator.t) (n : Z) (w : world) :
  exists rows w',
    Generator.generate self n w = (inr rows, w') /\
    forall calls,
      (length rows < calls)%nat ->
      pull self calls (GenStart (Some n)) w = (inr (rows, GenDone), w').
Proof.
  unfold Generator.generate, mbind.
  destruct (generate_loop_total self (Z.to_nat (n - 1)) [true] w)
    as (rows & w' & Hrun & Hlen & _).
  rewrite Hrun. exists ([true] :: rows), w'. unfold ret.
  split; [reflexivity |]. intros calls Hcalls. cbn [length] in Hcalls.
  destruct calls as [| calls]; [lia |].
  cbn [pull generate_next]. unfold mbind at 1, ret at 1. unfold mbind.
  replace calls with (S (Z.to_nat (n - 1) + (calls - S (Z.to_nat (n - 1)))))
    by lia.
  rewrite (pull_bounded self _ _ _ _ _ _ Hrun). reflexivity.
Qed.

(** ** The parity rule, row by row *)

Lemma take3_drop {A} (l : list A) (j : nat) (a b c : A) :
  l !! j = Some a -> l !! S j = Some b -> l !! S (S j) = Some c ->
  Py.slice l j (j + 3) = [a; b; c].
Proof.
  intros Ha Hb Hc. unfold Py.slice.
  replace (j + 3 - j)%nat with 3%nat by lia.
  rewrite (drop_S l a j Ha), (drop_S l b (S j) Hb), (drop_S l c (S (S j)) Hc).
  reflexivity.
Qed.

Lemma padded_lookup (row : list bool) (k : nat) :
  (k < length row + 4)%nat ->
  ([false; false] ++ row ++ [false; false]) !! k
  = Some (cell_at row (Z.of_nat k - 2)).
Proof.
  intros Hk. unfold cell_at.
  destruct k as [| [| k]]; [reflexivity | reflexivity |].
  cbn [app]. change ((false :: false :: ?l) !! S (S k)) with (l !! k).
  destruct (Z.leb_spec 0 (Z.of_nat (S (S k)) - 2)); [| lia].
  replace (Z.to_nat (Z.of_nat (S (S k)) - 2)) with k by lia.
  destruct (decide (k < length row)%nat) as [Hlt | Hge].
  - rewrite lookup_app_l by exact Hlt.
    destruct (lookup_lt_is_Some_2 row k Hlt) as [v ->]. reflexivity.
  - rewrite lookup_app_r by lia.
    rewrite (proj2 (lookup_ge_None row k)) by lia. cbn [default].
    destruct (k - length row)%nat as [| [| d]] eqn:Hd;
      [reflexivity | reflexivity | exfalso; lia].
Qed.

Lemma above_lookup (row : list bool) (j : nat) :
  (j < length row + 2)%nat ->
  Generator._above row !! j
  = Some [cell_at row (Z.of_nat j - 2); cell_at row (Z.of_nat j - 1);
          cell_at row (Z.of_nat j)].
Proof.
  intros Hj. unfold Generator._above. cbv zeta.
  change (map ?f ?l) with (f <$> l). rewrite list_lookup_fmap.
  rewrite lookup_seq_lt
    by (rewrite length_app; cbn [length]; rewrite length_app; cbn [length]; lia).
  cbn [fmap option_fmap option_map Nat.add].
  f_equal. rewrite (take3_drop _ j _ _ _ (padded_lookup row j ltac:(lia))
                      (padded_lookup row (S j) ltac:(lia))
                      (padded_lookup row (S (S j)) ltac:(lia))).
  replace (Z.of_nat (S j) - 2) with (Z.of_nat j - 1) by lia.
  replace (Z.of_nat (S (S j)) - 2) with (Z.of_nat j) by lia.
  reflexivity.
Qed.

Lemma black_xor3 (a b c : bool) : Rules.black [a; b; c] = xor3 a b c.
Proof. destruct a, b, c; reflexivity. Qed.

Lemma map_rule_rule150 {RS : RandomSource} (windows : list (list bool))
  (w : world) :
  Generator.map_rule Rules.rule150 windows w
  = (inr (map Rules.black windows), w).
Proof.
  revert w. induction windows as [| above rest IH]; intros [r c];
    [reflexivity |].
  cbn [Generator.map_rule map]. unfold mbind at 1, call_rule, Rules.rule150.
  cbn [rand clock]. unfold mbind. rewrite IH. reflexivity.
Qed.

Lemma parity_step_lookup (row : list bool) (j : nat) :
  (j < length row + 2)%nat ->
  parity_step row !! j
  = Some (xor3 (cell_at row (Z.of_nat j - 2)) (cell_at row (Z.of_nat j - 1))
               (cell_at row (Z.of_nat j))).
Proof.
  intros Hj. unfold parity_step. change (map ?f ?l) with (f <$> l).
  rewrite list_lookup_fmap, (above_lookup row j Hj).
  cbn [fmap option_fmap option_map]. rewrite black_xor3. reflexivity.
Qed.

Lemma parity_step_length (row : list bool) :
  length (parity_step row) = (length row + 2)%nat.
Proof. unfold parity_step. rewrite length_map. apply above_length. Qed.

(** X11. One step of the automaton under [rule150]: the next row is two
    cells longer, its cell [j] is the exclusive or of the cells [j - 2],
    [j - 1] and [j] of the row before (a cell outside the row counting as
    [False]), and computing it leaves the world as it was. *)
Theorem calculate_row_rule150 {RS : RandomSource}
  (self : Generator.t) (row : list bool) (w : world) :
  Generator.rule self = Rules.rule150 ->
  exists next,
    Generator._calculate_row self row w = (inr next, w) /\
    length next = (length row + 2)%nat /\
    forall j : nat,
      (j < length row + 2)%nat ->
      next !! j
      = Some (xor3 (cell_at row (Z.of_nat j - 2))
                   (cell_at row (Z.of_nat j - 1))
                   (cell_at row (Z.of_nat j))).
Proof.
  intros Hrule. exists (parity_step row).
  unfold Generator._calculate_row. rewrite Hrule, map_rule_rule150.
  split; [reflexivity |]. split; [apply parity_step_length |].
  apply parity_step_lookup.
Qed.

Lemma rev_lookup {A} (l : list A) (j : nat) :
  (j < length l)%nat -> rev l !! j = l !! (length l - S j)%nat.
Proof.
  intros Hj. rewrite rev_alt. apply (reverse_lookup l j Hj).
Qed.

Lemma palindrome_lookup {A} (l : list A) :
  rev l = l <->
  forall j, (j < length l)%nat -> l !! j = l !! (length l - S j)%nat.
Proof.
  split.
  - intros Hrev j Hj. rewrite <- Hrev at 1. apply rev_lookup, Hj.
  - intros Hsym. apply list_eq. intros j.
    destruct (decide (j < length l)%nat) as [Hj | Hj].
    + rewrite rev_lookup by exact Hj. symmetry. apply Hsym, Hj.
    + rewrite !(proj2 (lookup_ge_None _ _)); [reflexivity | lia |].
      rewrite length_rev. lia.
Qed.

Lemma cell_at_mirror (row : list bool) (k : Z) :
  rev row = row ->
  cell_at row k = cell_at row (Z.of_nat (length row) - 1 - k).
Proof.
  intros Hrev. unfold cell_at.
  destruct (Z.leb_spec 0 k) as [Hk | Hk],
           (Z.leb_spec 0 (Z.of_nat (length row) - 1 - k)) as [Hk' | Hk'].
  - rewrite (proj1 (palindrome_lookup row) Hrev (Z.to_nat k)) by lia.
    do 2 f_equal. lia.
  - rewrite (proj2 (lookup_ge_None row (Z.to_nat k))) by lia. reflexivity.
  - rewrite (proj2 (lookup_ge_None row _)) by lia. reflexivity.
  - reflexivity.
Qed.

Lemma xor3_flip (a b c : bool) : xor3 a b c = xor3 c b a.
Proof. destruct a, b, c; reflexivity. Qed.

Lemma parity_step_mirrored (row : list bool) :
  mirrored row -> mirrored (parity_step row).
Proof.
  intros [Hrev Hhead]. split.
  - apply palindrome_lookup. intros j Hj.
    rewrite parity_step_length in *.
    rewrite !parity_step_lookup by lia.
    rewrite xor3_flip. f_equal.
    rewrite (cell_at_mirror row (Z.of_nat j) Hrev),
            (cell_at_mirror row (Z.of_nat j - 1) Hrev),
            (cell_at_mirror row (Z.of_nat j - 2) Hrev).
    repeat (f_equal; try lia).
  - pose proof (parity_step_lookup row 0 ltac:(lia)) as H0.
    destruct row as [| c row]; [discriminate |].
    injection Hhead as ->.
    destruct (parity_step (true :: row)) as [| c' next]; [discriminate |].
    cbn in H0. exact H0.
Qed.

Lemma parity_rows_mirrored (turns : nat) (row : list bool) :
  mirrored row -> Forall mirrored (parity_rows turns row).
Proof.
  revert row. induction turns as [| turns IH]; intros row Hrow;
    cbn [parity_rows]; constructor.
  - apply parity_step_mirrored, Hrow.
  - apply IH, parity_step_mirrored, Hrow.
Qed.

Lemma generate_loop_rule150 {RS : RandomSource} (self : Generator.t)
  (turns : nat) (row : list bool) (w : world) :
  Generator.rule self = Rules.rule150 ->
  Generator.generate_loop self turns row w = (inr (parity_rows turns row), w).
Proof.
  intros Hrule. revert row. induction turns as [| turns IH]; intros row;
    [reflexivity |].
  cbn [Generator.generate_loop parity_rows]. unfold mbind at 1.
  unfold Generator._calculate_row. rewrite Hrule, map_rule_rule150.
  fold (parity_step row). unfold mbind. rewrite IH. reflexivity.
Qed.

Lemma generate_rule150_rows {RS : RandomSource} (self : Generator.t)
  (n : Z) (w : world) :
  Generator.rule self = Rules.rule150 ->
  Generator.generate self n w
    = (inr ([true] :: parity_rows (Z.to_nat (n - 1)) [true]), w) /\
  Forall mirrored ([true] :: parity_rows (Z.to_nat (n - 1)) [true]).
Proof.
  intros Hrule. unfold Generator.generate, mbind.
  rewrite (generate_loop_rule150 self _ _ _ Hrule). split; [reflexivity |].
  constructor; [split; reflexivity |].
  apply parity_rows_mirrored. split; reflexivity.
Qed.

(** X12. Under [rule150] the wedge is symmetric: every row [generate]
    yields reads the same from left to right as from right to left, and
    its first cell, hence its last one too, is [True]; and generating the
    rows leaves the world, the random source included, as it was. *)
Theorem generate_rule150_mirrored {RS : RandomSource}
  (self : Generator.t) (n : Z) (w : world) :
  Generator.rule self = Rules.rule150 ->
  exists rows,
    Generator.generate self n w = (inr rows, w) /\
    Forall (fun row =>
              rev row = row /\ head row = Some true /\
              List.last row false = true) rows.
Proof.
  intros Hrule. unfold Generator.generate, mbind.
  rewrite (generate_loop_rule150 self _ _ _ Hrule).
  exists ([true] :: parity_rows (Z.to_nat (n - 1)) [true]).
  split; [reflexivity |].
  assert (Hm : Forall mirrored ([true] :: parity_rows (Z.to_nat (n - 1)) [true])).
  { constructor; [split; reflexivity |].
    apply parity_rows_mirrored. split; reflexivity. }
  eapply Forall_impl; [exact Hm |]. intros row [Hrev Hhead].
  split; [exact Hrev |]. split; [exact Hhead |].
  rewrite <- Hrev. destruct row as [| c row]; [discriminate |].
  injection Hhead as ->. cbn [rev]. apply last_last.
Qed.

(** ** What the assembled grid holds *)

Lemma hits_In (places : list (Z * Z)) (x y : Z) :
  hits places x y = true <-> In (x, y) places.
Proof.
  unfold hits. rewrite existsb_exists. split.
  - intros ([px py] & Hin & Heq). cbn [fst snd] in Heq.
    apply andb_true_iff in Heq as [Hx Hy].
    apply Z.eqb_eq in Hx, Hy. subst. exact Hin.
  - intros Hin. exists (x, y). split; [exact Hin |]. cbn [fst snd].
    rewrite !Z.eqb_refl. reflexivity.
Qed.

Lemma row_hits_true (cx cy index : Z) (row : list bool) :
  forall i x y,
    row_hits cx cy index i row x y = true <->
    exists j : nat,
      row !! j = Some true /\
      In (x, y) (Generator.rotations cx cy index (i + Z.of_nat j - index)).
Proof.
  induction row as [| c rest IH]; intros i x y; cbn [row_hits].
  - split; [discriminate | intros (j & Hj & _); discriminate].
  - rewrite orb_true_iff, andb_true_iff, hits_In, IH. split.
    + intros [[-> Hin] | (j & Hj & Hin)].
      * exists 0%nat. split; [reflexivity |].
        replace (i + Z.of_nat 0 - index) with (i - index) by lia. exact Hin.
      * exists (S j). split; [exact Hj |].
        replace (i + Z.of_nat (S j) - index) with (i + 1 + Z.of_nat j - index)
          by lia. exact Hin.
    + intros ([| j] & Hj & Hin).
      * left. injection Hj as ->. split; [reflexivity |].
        replace (i - index) with (i + Z.of_nat 0 - index) by lia. exact Hin.
      * right. exists j. split; [exact Hj |].
        replace (i + 1 + Z.of_nat j - index) with (i + Z.of_nat (S j) - index)
          by lia. exact Hin.
Qed.

Lemma rows_hits_true (cx cy : Z) (rows : list (list bool)) :
  forall index x y,
    rows_hits cx cy index rows x y = true <->
    exists (k : nat) (row : list bool) (j : nat),
      rows !! k = Some row /\ row !! j = Some true /\
      In (x, y) (Generator.rotations cx cy (index + Z.of_nat k)
                   (Z.of_nat j - (index + Z.of_nat k))).
Proof.
  induction rows as [| row rest IH]; intros index x y; cbn [rows_hits].
  - split; [discriminate | intros (k & r & j & Hk & _); discriminate].
  - rewrite orb_true_iff, row_hits_true, IH. split.
    + intros [(j & Hj & Hin) | (k & r & j & Hk & Hj & Hin)].
      * exists 0%nat, row, j. split; [reflexivity |]. split; [exact Hj |].
        replace (index + Z.of_nat 0) with index by lia. exact Hin.
      * exists (S k), r, j. split; [exact Hk |]. split; [exact Hj |].
        replace (index + Z.of_nat (S k)) with (index + 1 + Z.of_nat k) by lia.
        exact Hin.
    + intros ([| k] & r & j & Hk & Hj & Hin).
      * left. injection Hk as ->. exists j. split; [exact Hj |].
        replace (index + Z.of_nat 0) with index in Hin by lia. exact Hin.
      * right. exists k, r, j. split; [exact Hk |]. split; [exact Hj |].
        replace (index + 1 + Z.of_nat k) with (index + Z.of_nat (S k)) by lia.
        exact Hin.
Qed.

Lemma square_inside (n : Z) (g g' : Grid.t) (x y : Z) :
  square n g -> square n g' -> inside g x y -> inside g' x y.
Proof.
  intros (_ & Hw & Hh) (_ & Hw' & Hh'). unfold inside.
  rewrite Hw, Hh, Hw', Hh'. auto.
Qed.

Lemma write_row_cells (n index : Z) (row : list bool) :
  0 <= index <= n - 1 ->
  forall (i : Z) (g : Grid.t),
    0 <= i -> i + Z.of_nat (length row) <= 2 * index + 1 ->
    square n g ->
    exists g',
      Generator.write_row (n - 1) (n - 1) index i row g = inr g' /\
      square n g' /\
      forall x y, inside g x y ->
        cell g' x y
        = cell g x y || row_hits (n - 1) (n - 1) index i row x y.
Proof.
  intros Hindex. induction row as [| c rest IH]; intros i g Hi Hlen Hg.
  - exists g. split; [reflexivity |]. split; [exact Hg |].
    intros x y _. cbn. rewrite orb_false_r. reflexivity.
  - cbn [length] in Hlen. cbn [Generator.write_row row_hits]. destruct c.
    + destruct Hg as (Hwf & Hw & Hh).
      destruct (set_all_inside _ g Hwf
                  (rotations_inside n index (i - index) g Hw Hh
                     ltac:(lia) ltac:(lia)))
        as (g1 & -> & Hwf1 & Hw1 & Hh1 & _ & _ & Hcell1).
      cbn [Py.bind].
      assert (Hg1 : square n g1) by (split; [exact Hwf1 | split; congruence]).
      destruct (IH (i + 1) g1 ltac:(lia) ltac:(lia) Hg1) as (g' & Hrun & Hg' & Hcell').
      exists g'. split; [exact Hrun |]. split; [exact Hg' |].
      intros x y Hin.
      rewrite Hcell' by (unfold inside in *; rewrite Hw1, Hh1; exact Hin).
      rewrite (Hcell1 x y Hin). cbn [andb]. symmetry. apply orb_assoc.
    + destruct (IH (i + 1) g ltac:(lia) ltac:(lia) Hg) as (g' & Hrun & Hg' & Hcell').
      exists g'. split; [exact Hrun |]. split; [exact Hg' |].
      intros x y Hin. rewrite (Hcell' x y Hin). reflexivity.
Qed.

Lemma write_list_cells (n : Z) (rows : list (list bool)) :
  forall (index : Z) (g : Grid.t),
    wedge_rows n index rows -> square n g ->
    exists g',
      write_list (n - 1) (n - 1) index rows g = inr g' /\
      square n g' /\
      forall x y, inside g x y ->
        cell g' x y = cell g x y || rows_hits (n - 1) (n - 1) index rows x y.
Proof.
  induction rows as [| row rest IH]; intros index g Hrows Hg.
  - exists g. split; [reflexivity |]. split; [exact Hg |].
    intros x y _. cbn. rewrite orb_false_r. reflexivity.
  - destruct Hrows as (Hindex & Hlen & Hrest). cbn [write_list rows_hits].
    destruct (write_row_cells n index row Hindex 0 g ltac:(lia) ltac:(lia) Hg)
      as (g1 & -> & Hg1 & Hcell1).
    cbn [Py.bind].
    destruct (IH (index + 1) g1 Hrest Hg1) as (g' & Hrun & Hg' & Hcell').
    exists g'. split; [exact Hrun |]. split; [exact Hg' |].
    intros x y Hin.
    rewrite Hcell' by exact (square_inside n g g1 x y Hg Hg1 Hin).
    rewrite (Hcell1 x y Hin). symmetry. apply orb_assoc.
Qed.

Lemma grows_wedge_rows (n : Z) (rows : list (list bool)) :
  forall (index : Z) (row : list bool),
    0 <= index -> index + Z.of_nat (length rows) <= n - 1 ->
    Z.of_nat (length row) = 2 * index + 1 ->
    grows_by_two row rows ->
    wedge_rows n index (row :: rows).
Proof.
  induction rows as [| next rest IH]; intros index row Hi Hn Hlen Hg.
  - cbn. repeat split; cbn in Hn; lia.
  - destruct Hg as [Hnext Hg]. cbn [length] in Hn.
    split; [lia |]. split; [exact Hlen |].
    apply IH; [lia | lia | lia | exact Hg].
Qed.

Lemma generate_seed_same_world {RS : RandomSource} (self : Generator.t)
  (seed : seed_value) (w : world) :
  snd (Generator._generate_seed self seed w) = w.
Proof. destruct seed; reflexivity. Qed.

Lemma create_grid_cells {RS : RandomSource} (self : Generator.t)
  (n : Z) (w : world) (z : Z) :
  1 <= n ->
  fst (Generator._generate_seed self (Generator.seed self) w) = inr z ->
  exists rows g w',
    Generator.generate self n {| rand := rng_seed z; clock := clock w |}
      = (inr rows, w') /\
    Generator.create_grid self n w = (inr g, w') /\
    length rows = Z.to_nat n /\ wedge_rows n 0 rows /\
    forall x y,
      0 <= x <= 2 * n - 2 -> 0 <= y <= 2 * n - 2 ->
      Grid.get g x y = inr (rows_hits (n - 1) (n - 1) 0 rows x y).
Proof.
  intros Hn Hseed. rewrite create_grid_unfold.
  pose proof (generate_seed_same_world self (Generator.seed self) w) as Hw.
  destruct (Generator._generate_seed self _ w) as [[e | s] w1];
    cbn [fst snd] in Hseed, Hw; [discriminate |].
  injection Hseed as ->. subst w1. rewrite init_center. cbn [fst snd].
  set (w1 := {| rand := rng_seed z; clock := clock w |}).
  set (g0 := Grid.set_seed (Grid.init (n * 2 - 1) (n * 2 - 1) None) z).
  unfold Generator.generate, mbind.
  destruct (generate_loop_total self (Z.to_nat (n - 1)) [true] w1)
    as (rows & w' & Hrun & Hlen & Hgrow).
  rewrite Hrun.
  assert (Hwedge : wedge_rows n 0 ([true] :: rows)).
  { apply grows_wedge_rows; [lia | lia | reflexivity | exact Hgrow]. }
  assert (Hg0 : square n g0).
  { destruct (init_assembled n None Hn) as (Hwf & Hwd & Hh & _).
    split; [exact Hwf | split; [exact Hwd | exact Hh]]. }
  destruct (write_list_cells n _ 0 g0 Hwedge Hg0) as (g & Hwrite & Hg & Hcell).
  exists ([true] :: rows), g, w'. unfold ret.
  split; [reflexivity |].
  split; [exact (write_rows_generate self _ _ _ _ _ _ _ _ _ _ Hrun Hwrite) |].
  split; [cbn [length]; lia |]. split; [exact Hwedge |].
  intros x y Hx Hy. destruct Hg as (Hwf & Hwd & Hh).
  rewrite get_inside by (try exact Hwf; unfold inside; lia).
  rewrite Hcell by (destruct Hg0 as (_ & Hwd0 & Hh0); unfold inside; lia).
  unfold g0. change (cell (Grid.set_seed ?g0 z) x y) with (cell g0 x y).
  rewrite cell_init. reflexivity.
Qed.

(** X13. What the grid holds.  For [n >= 1] and a seed that normalises to
    [z], [create_grid(n)] returns a grid and leaves the world as
    [generate(n)] leaves it when started on the random source seeded with
    [z]; a cell of the grid is [True] exactly when it is one of the four
    places some [True] cell of these rows, at position [j] of the row
    [i], is copied to, and it is [False] otherwise; the centre cell is
    always [True]. *)
Theorem create_grid_content {RS : RandomSource}
  (self : Generator.t) (n : Z) (w : world) (z : Z) :
  1 <= n ->
  fst (Generator._generate_seed self (Generator.seed self) w) = inr z ->
  exists rows g w',
    Generator.generate self n {| rand := rng_seed z; clock := clock w |}
      = (inr rows, w') /\
    Generator.create_grid self n w = (inr g, w') /\
    Grid.get g (n - 1) (n - 1) = inr true /\
    forall x y,
      0 <= x <= 2 * n - 2 -> 0 <= y <= 2 * n - 2 ->
      (Grid.get g x y = inr true \/ Grid.get g x y = inr false) /\
      (Grid.get g x y = inr true <->
       exists (i : nat) (row : list bool) (j : nat),
         rows !! i = Some row /\ row !! j = Some true /\
         In (x, y) (Generator.rotations (n - 1) (n - 1) (Z.of_nat i)
                      (Z.of_nat j - Z.of_nat i))).
Proof.
  intros Hn Hseed.
  destruct (create_grid_cells self n w z Hn Hseed)
    as (rows & g & w' & Hgen & Hrun & Hlen & Hwedge & Hget).
  exists rows, g, w'. split; [exact Hgen |]. split; [exact Hrun |].
  assert (Hchar : forall x y,
             rows_hits (n - 1) (n - 1) 0 rows x y = true <->
             exists (i : nat) (row : list bool) (j : nat),
               rows !! i = Some row /\ row !! j = Some true /\
               In (x, y) (Generator.rotations (n - 1) (n - 1) (Z.of_nat i)
                            (Z.of_nat j - Z.of_nat i))).
  { intros x y. rewrite rows_hits_true. reflexivity. }
  split.
  - rewrite Hget by lia. f_equal. apply Hchar.
    unfold Generator.generate, mbind in Hgen.
    destruct (Generator.generate_loop self _ [true] _) as [[e | rest] w1];
      [discriminate |].
    injection Hgen as <- <-. exists 0%nat, [true], 0%nat.
    split; [reflexivity |]. split; [reflexivity |]. left. f_equal; lia.
  - intros x y Hx Hy. rewrite (Hget x y Hx Hy). split.
    + destruct (rows_hits _ _ _ _ _ _); auto.
    + rewrite <- Hchar. split; [intros [= ->]; reflexivity | intros ->; reflexivity].
Qed.

Lemma rotations_In (cx cy rx ry x y : Z) :
  In (x, y) (Generator.rotations cx cy rx ry) <->
  (x = cx + rx /\ y = cy + ry) \/ (x = cx - rx /\ y = cy - ry) \/
  (x = cx - ry /\ y = cy + rx) \/ (x = cx + ry /\ y = cy - rx).
Proof.
  unfold Generator.rotations. cbn [In]. split.
  - intros [H | [H | [H | [H | []]]]]; injection H as <- <-; lia.
  - intros [[-> ->] | [[-> ->] | [[-> ->] | [-> ->]]]]; auto.
Qed.

Lemma wedge_rows_lookup (n : Z) (rows : list (list bool)) :
  forall (index : Z) (k : nat) (row : list bool),
    wedge_rows n index rows -> rows !! k = Some row ->
    Z.of_nat (length row) = 2 * (index + Z.of_nat k) + 1.
Proof.
  induction rows as [| r rest IH]; intros index k row Hw Hk; [discriminate |].
  destruct Hw as (_ & Hlen & Hrest). destruct k as [| k].
  - injection Hk as <-. lia.
  - rewrite (IH (index + 1) k row Hrest Hk). lia.
Qed.

(** A [True] cell of a mirrored wedge row has a [True] cell opposite. *)
Lemma mirrored_opposite (row : list bool) (j : nat) :
  mirrored row -> row !! j = Some true ->
  row !! (length row - S j)%nat = Some true.
Proof.
  intros [Hrev _] Hj. rewrite <- Hj. symmetry.
  apply (proj1 (palindrome_lookup row) Hrev).
  apply lookup_lt_Some in Hj. exact Hj.
Qed.

Section Symmetries.

Variables (n c : Z) (rows : list (list bool)).
Hypothesis Hwedge : wedge_rows n 0 rows.
Hypothesis Hmirrored : Forall mirrored rows.

Lemma rows_hits_mirror_1 (x y : Z) :
  rows_hits c c 0 rows x y = true -> rows_hits c c 0 rows x (2 * c - y) = true.
Proof.
  rewrite !rows_hits_true. intros (k & row & j & Hk & Hj & Hin).
  pose proof (wedge_rows_lookup n rows 0 k row Hwedge Hk) as Hlen.
  assert (Hrow : mirrored row).
  { rewrite Forall_forall in Hmirrored.
    apply Hmirrored, list_elem_of_lookup. eauto. }
  pose proof (lookup_lt_Some _ _ _ Hj) as Hlt.
  exists k, row, (length row - S j)%nat.
  split; [exact Hk |]. split; [exact (mirrored_opposite row j Hrow Hj) |].
  apply rotations_In in Hin. apply rotations_In. lia.
Qed.

Lemma rows_hits_mirror (x y : Z) :
  rows_hits c c 0 rows x (2 * c - y) = rows_hits c c 0 rows x y.
Proof.
  apply eq_true_iff_eq. split.
  - intros H. apply rows_hits_mirror_1 in H.
    replace (2 * c - (2 * c - y)) with y in H by lia. exact H.
  - apply rows_hits_mirror_1.
Qed.

Lemma rows_hits_transpose_1 (x y : Z) :
  rows_hits c c 0 rows x y = true -> rows_hits c c 0 rows y x = true.
Proof.
  rewrite !rows_hits_true. intros (k & row & j & Hk & Hj & Hin).
  pose proof (wedge_rows_lookup n rows 0 k row Hwedge Hk) as Hlen.
  assert (Hrow : mirrored row).
  { rewrite Forall_forall in Hmirrored.
    apply Hmirrored, list_elem_of_lookup. eauto. }
  pose proof (lookup_lt_Some _ _ _ Hj) as Hlt.
  exists k, row, (length row - S j)%nat.
  split; [exact Hk |]. split; [exact (mirrored_opposite row j Hrow Hj) |].
  apply rotations_In in Hin. apply rotations_In. lia.
Qed.

Lemma rows_hits_transpose (x y : Z) :
  rows_hits c c 0 rows y x = rows_hits c c 0 rows x y.
Proof.
  apply eq_true_iff_eq. split; apply rows_hits_transpose_1.
Qed.

Lemma rows_hits_diagonal (a : Z) :
  Z.abs a < Z.of_nat (length rows) ->
  rows_hits c c 0 rows (c + a) (c + a) = true /\
  rows_hits c c 0 rows (c + a) (c - a) = true.
Proof.
  intros Ha.
  destruct (lookup_lt_is_Some_2 rows (Z.to_nat (Z.abs a)) ltac:(lia)) as [row Hk].
  assert (Hrow : mirrored row).
  { rewrite Forall_forall in Hmirrored.
    apply Hmirrored, list_elem_of_lookup. eauto. }
  destruct Hrow as [_ Hhead].
  assert (H0 : row !! 0%nat = Some true) by (destruct row; exact Hhead).
  split; apply rows_hits_true; exists (Z.to_nat (Z.abs a)), row, 0%nat;
    (split; [exact Hk |]); (split; [exact H0 |]); apply rotations_In; lia.
Qed.

End Symmetries.

Lemma parity_rows_length (turns : nat) (row : list bool) :
  length (parity_rows turns row) = turns.
Proof.
  revert row. induction turns as [| turns IH]; intros row; [reflexivity |].
  cbn [parity_rows length]. rewrite IH. reflexivity.
Qed.

(** X14. The picture of [rule150] has every symmetry of the square.  For
    [n >= 1], a seed that normalises to [z] and the rule [rule150],
    [create_grid(n)] returns a grid that is unchanged by the reflection
    [(a, b) -> (a, -b)] and by the transposition [(a, b) -> (b, a)] about
    its centre, and both of whose diagonals are [True] all along; the
    random source is left as seeded with [z], no draw being made. *)
Theorem create_grid_rule150_symmetric {RS : RandomSource}
  (self : Generator.t) (n : Z) (w : world) (z : Z) :
  Generator.rule self = Rules.rule150 ->
  1 <= n ->
  fst (Generator._generate_seed self (Generator.seed self) w) = inr z ->
  exists g,
    Generator.create_grid self n w
      = (inr g, {| rand := rng_seed z; clock := clock w |}) /\
    forall a b,
      - (n - 1) <= a <= n - 1 -> - (n - 1) <= b <= n - 1 ->
      Grid.get g (n - 1 + a) (n - 1 - b) = Grid.get g (n - 1 + a) (n - 1 + b) /\
      Grid.get g (n - 1 + b) (n - 1 + a) = Grid.get g (n - 1 + a) (n - 1 + b) /\
      Grid.get g (n - 1 + a) (n - 1 + a) = inr true /\
      Grid.get g (n - 1 + a) (n - 1 - a) = inr true.
Proof.
  intros Hrule Hn Hseed.
  destruct (create_grid_cells self n w z Hn Hseed)
    as (rows & g & w' & Hgen & Hrun & Hlen & Hwedge & Hget).
  destruct (generate_rule150_rows self n
              {| rand := rng_seed z; clock := clock w |} Hrule) as [Hgen' Hmir].
  rewrite Hgen' in Hgen. injection Hgen as <- <-.
  exists g. split; [exact Hrun |]. intros a b Ha Hb.
  rewrite !Hget by lia.
  set (rows := [true] :: parity_rows (Z.to_nat (n - 1)) [true]) in *.
  split; [| split].
  - f_equal. replace (n - 1 - b) with (2 * (n - 1) - (n - 1 + b)) by lia.
    apply (rows_hits_mirror n (n - 1) rows Hwedge Hmir).
  - f_equal. apply (rows_hits_transpose n (n - 1) rows Hwedge Hmir).
  - destruct (rows_hits_diagonal (n - 1) rows Hmir a) as [H1 H2]; [lia |].
    rewrite H1, H2. split; reflexivity.
Qed.

(** ** What the assembly does to the world *)

Lemma write_rows_clock {RS : RandomSource} (self : Generator.t)
  (cx cy : Z) (turns : nat) :
  forall index row g w,
    clock (snd (Generator.write_rows self cx cy turns index row g w))
    = clock w.
Proof.
  induction turns as [| turns IH]; intros index row g w;
    cbn [Generator.write_rows]; unfold mbind at 1, lift;
    destruct (Generator.write_row cx cy index 0 row g) as [e | g1];
    try reflexivity.
  unfold mbind at 1, Generator._calculate_row.
  pose proof (map_rule_clock (Generator.rule self) (Generator._above row) w) as Hc.
  destruct (Generator.map_rule _ _ w) as [[e | row'] w1]; [exact Hc |].
  rewrite IH. exact Hc.
Qed.

Lemma write_rows_rule150_world {RS : RandomSource} (self : Generator.t)
  (cx cy : Z) (turns : nat) :
  Generator.rule self = Rules.rule150 ->
  forall index row g w,
    snd (Generator.write_rows self cx cy turns index row g w) = w.
Proof.
  intros Hrule. induction turns as [| turns IH]; intros index row g w;
    cbn [Generator.write_rows]; unfold mbind at 1, lift;
    destruct (Generator.write_row cx cy index 0 row g) as [e | g1];
    try reflexivity.
  unfold mbind at 1, Generator._calculate_row.
  rewrite Hrule, map_rule_rule150. apply IH.
Qed.

(** X15. What [create_grid] does to the world.  It never changes the
    clock.  When the seed does not normalise it raises before anything
    else is touched and the world is as it was.  Otherwise the shared
    random source has been seeded with the integer [z] of the seed, also
    when the call then fails for [n <= 0]; and in that failing case, or
    under [rule150], which draws nothing, the source is left exactly as
    seeded. *)
Theorem create_grid_world {RS : RandomSource}
  (self : Generator.t) (n : Z) (w : world) :
  clock (snd (Generator.create_grid self n w)) = clock w /\
  (forall e,
     fst (Generator._generate_seed self (Generator.seed self) w) = inl e ->
     snd (Generator.create_grid self n w) = w) /\
  (forall z,
     fst (Generator._generate_seed self (Generator.seed self) w) = inr z ->
     n <= 0 \/ Generator.rule self = Rules.rule150 ->
     rand (snd (Generator.create_grid self n w)) = rng_seed z).
Proof.
  rewrite create_grid_unfold.
  pose proof (generate_seed_same_world self (Generator.seed self) w) as Hw.
  destruct (Generator._generate_seed self _ w) as [[e | s] w1];
    cbn [fst snd] in *; subst w1.
  - split; [reflexivity |]. split; [reflexivity | discriminate].
  - split; [rewrite write_rows_clock; reflexivity |]. split; [discriminate |].
    intros z [= <-] [Hn | Hrule].
    + assert (Hrows : Z.to_nat (n * 2 - 1) = 0%nat) by lia.
      destruct (Z.to_nat (n - 1)); cbn [Generator.write_rows];
        unfold mbind at 1, lift;
        cbn [Generator.write_row Generator.rotations Generator.set_all];
        unfold Grid.set at 1, Grid.set_seed, Grid.init; cbn [Grid.array];
        rewrite Hrows; cbn [replicate]; rewrite getitem_nil; reflexivity.
    + rewrite (write_rows_rule150_world self _ _ _ Hrule). reflexivity.
Qed.

(** ** The renderers *)

Lemma xrange_In (k y : Z) : In y (xrange k) <-> 0 <= y < k.
Proof.
  unfold xrange. rewrite in_map_iff. split.
  - intros (i & <- & Hi). apply in_seq in Hi. lia.
  - intros Hy. exists (Z.to_nat y). split; [lia |]. apply in_seq. lia.
Qed.

Lemma xrange_length (k : Z) : length (xrange k) = Z.to_nat k.
Proof. unfold xrange. rewrite length_map. apply length_seq. Qed.

Lemma cells_inside (g : Grid.t) (x : Z) (ys : list Z) :
  grid_wf g -> 0 <= x < Grid.width g ->
  (forall y, In y ys -> 0 <= y < Grid.height g) ->
  AsciiRenderer.cells g x ys
  = inr (map (fun y => String (dump_char (cell g x y)) EmptyString) ys).
Proof.
  intros Hwf Hx. induction ys as [| y rest IH]; intros Hys; [reflexivity |].
  cbn [AsciiRenderer.cells map].
  rewrite (get_inside g x y Hwf) by (split; [exact Hx | apply Hys; left; reflexivity]).
  cbn [Py.bind]. rewrite IH by (intros y' Hy'; apply Hys; right; exact Hy').
  cbn [Py.bind]. destruct (cell g x y); reflexivity.
Qed.

Lemma join_chars_bracket (chars : list ascii) :
  Py.join (map (fun c => String c EmptyString) chars ++ ["]"%string])
  = string_of_list_ascii (chars ++ ["]"%char]).
Proof.
  induction chars as [| c rest IH]; [reflexivity |].
  cbn [map app Py.join fold_right string_of_list_ascii].
  change (fold_right String.append EmptyString ?l) with (Py.join l).
  rewrite IH. reflexivity.
Qed.

Lemma lines_inside (g : Grid.t) (xs : list Z) :
  grid_wf g ->
  (forall x, In x xs -> 0 <= x < Grid.width g) ->
  AsciiRenderer.lines g xs = inr (map (dump_line g) xs).
Proof.
  intros Hwf. induction xs as [| x rest IH]; intros Hxs; [reflexivity |].
  cbn [AsciiRenderer.lines map].
  rewrite (cells_inside g x _ Hwf) by
    (try (apply Hxs; left; reflexivity); intros y Hy; apply xrange_In, Hy).
  cbn [Py.bind]. rewrite IH by (intros x' Hx'; apply Hxs; right; exact Hx').
  cbn [Py.bind]. do 2 f_equal. unfold dump_line.
  cbn [app Py.join fold_right string_of_list_ascii].
  change (fold_right String.append EmptyString ?l) with (Py.join l).
  rewrite <- (map_map (fun y => dump_char (cell g x y))
                      (fun c => String c EmptyString)).
  rewrite join_chars_bracket. reflexivity.
Qed.

Lemma length_string_of_list_ascii (chars : list ascii) :
  String.length (string_of_list_ascii chars) = length chars.
Proof.
  induction chars as [| c rest IH]; [reflexivity |]. cbn. rewrite IH.
  reflexivity.
Qed.

Lemma get_string_of_list_ascii (chars : list ascii) (k : nat) :
  String.get k (string_of_list_ascii chars) = chars !! k.
Proof.
  revert k. induction chars as [| c rest IH]; intros [| k]; try reflexivity.
  cbn. apply IH.
Qed.

Lemma xrange_lookup (k : Z) (i : nat) :
  (i < Z.to_nat k)%nat -> xrange k !! i = Some (Z.of_nat i).
Proof.
  intros Hi. unfold xrange. change (map ?f ?l) with (f <$> l).
  rewrite list_lookup_fmap, lookup_seq_lt by exact Hi. reflexivity.
Qed.

(** X16. The text dump of a grid of [width] columns and [height] rows
    never raises.  It is [width] lines joined by newlines, one for each
    column [x] in order; the line of [x] is a bracket, then a [#] or a
    blank for each row [y] in order as [get(x, y)] is [True] or not, then
    a bracket, [height + 2] characters in all: the columns of the grid are
    the lines of the dump. *)
Theorem to_string_dump (g : Grid.t) :
  grid_wf g ->
  AsciiRenderer.to_string g
    = inr (join_with newline (map (dump_line g) (xrange (Grid.width g)))) /\
  length (map (dump_line g) (xrange (Grid.width g))) = Z.to_nat (Grid.width g) /\
  forall x,
    0 <= x < Grid.width g ->
    String.length (dump_line g x) = (Z.to_nat (Grid.height g) + 2)%nat /\
    forall y,
      0 <= y < Grid.height g ->
      Grid.get g x y = inr (cell g x y) /\
      String.get (S (Z.to_nat y)) (dump_line g x)
      = Some (dump_char (cell g x y)).
Proof.
  intros Hwf. split; [| split].
  - unfold AsciiRenderer.to_string.
    rewrite (lines_inside g _ Hwf) by (intros x Hx; apply xrange_In, Hx).
    reflexivity.
  - rewrite length_map. apply xrange_length.
  - intros x Hx. split.
    + unfold dump_line. rewrite length_string_of_list_ascii.
      cbn [length]. rewrite length_app, length_map, xrange_length.
      cbn [length]. lia.
    + intros y Hy. split; [apply get_inside; [exact Hwf | split; assumption] |].
      unfold dump_line. cbn [string_of_list_ascii String.get].
      rewrite get_string_of_list_ascii.
      rewrite lookup_app_l by (rewrite length_map, xrange_length; lia).
      change (map ?f ?l) with (f <$> l).
      rewrite list_lookup_fmap, xrange_lookup by lia.
      cbn [fmap option_fmap option_map]. rewrite Z2Nat.id by lia.
      reflexivity.
Qed.

Lemma blit_column_In (self : PygameRenderer.t) (x_cell : Z)
  (column : list bool) :
  forall y0 px py,
    In (px, py) (PygameRenderer.blit_column self x_cell y0 column) <->
    px = x_cell /\
    exists c : nat,
      column !! c = Some true /\
      py = (y0 + Z.of_nat c) * PygameRenderer.pixel_size self.
Proof.
  induction column as [| cell rest IH]; intros y0 px py;
    cbn [PygameRenderer.blit_column].
  - split; [intros [] | intros (_ & c & Hc & _); discriminate].
  - rewrite in_app_iff, IH. split.
    + intros [Hhere | (Hpx & c & Hc & Hpy)].
      * destruct cell; [| destruct Hhere].
        destruct Hhere as [[= <- <-] | []]. split; [reflexivity |].
        exists 0%nat. split; [reflexivity |]. f_equal; lia.
      * split; [exact Hpx |]. exists (S c). split; [exact Hc |].
        rewrite Hpy; f_equal; lia.
    + intros (Hpx & [| c] & Hc & Hpy).
      * left. injection Hc as ->. left. rewrite Hpx, Hpy. do 2 f_equal; lia.
      * right. split; [exact Hpx |]. exists c. split; [exact Hc |].
        rewrite Hpy; f_equal; lia.
Qed.

Lemma blit_columns_In (self : PygameRenderer.t) (columns : list (list bool)) :
  forall x0 px py,
    In (px, py) (PygameRenderer.blit_columns self x0 columns) <->
    exists (r : nat) (column : list bool) (c : nat),
      columns !! r = Some column /\ column !! c = Some true /\
      px = (x0 + Z.of_nat r) * PygameRenderer.pixel_size self /\
      py = Z.of_nat c * PygameRenderer.pixel_size self.
Proof.
  induction columns as [| column rest IH]; intros x0 px py;
    cbn [PygameRenderer.blit_columns].
  - split; [intros [] | intros (r & col & c & Hr & _); discriminate].
  - cbv zeta. rewrite in_app_iff, blit_column_In, IH. split.
    + intros [(Hpx & c & Hc & Hpy) | (r & col & c & Hr & Hc & Hpx & Hpy)].
      * exists 0%nat, column, c. split; [reflexivity |]. split; [exact Hc |].
        split; [rewrite Hpx; f_equal; lia | rewrite Hpy; f_equal; lia].
      * exists (S r), col, c. split; [exact Hr |]. split; [exact Hc |].
        split; [rewrite Hpx; f_equal; lia | exact Hpy].
    + intros ([| r] & col & c & Hr & Hc & Hpx & Hpy).
      * left. injection Hr as ->. split; [rewrite Hpx; f_equal; lia |].
        exists c. split; [exact Hc |]. rewrite Hpy; f_equal; lia.
      * right. exists r, col, c. split; [exact Hr |]. split; [exact Hc |].
        split; [rewrite Hpx; f_equal; lia | exact Hpy].
Qed.

Lemma render_blits_get (self : PygameRenderer.t) (g : Grid.t) (px py : Z) :
  grid_wf g ->
  In (px, py) (PygameRenderer.render_blits self g) <->
  exists x y,
    inside g x y /\ Grid.get g x y = inr true /\
    px = y * PygameRenderer.pixel_size self /\
    py = x * PygameRenderer.pixel_size self.
Proof.
  intros Hwf. unfold PygameRenderer.render_blits. rewrite blit_columns_In.
  pose proof (grid_wf_rows g Hwf) as Hrows. split.
  - intros (r & column & c & Hr & Hc & Hpx & Hpy).
    pose proof (grid_wf_row g r column Hwf Hr) as Hcol.
    pose proof (lookup_lt_Some _ _ _ Hr) as Hrlt.
    pose proof (lookup_lt_Some _ _ _ Hc) as Hclt.
    assert (Hin : inside g (Z.of_nat c) (Z.of_nat r)) by (unfold inside; lia).
    exists (Z.of_nat c), (Z.of_nat r). split; [exact Hin |].
    destruct (grid_access_inside g _ _ true Hwf Hin)
      as (row & v & Hrow & Hv & Hget & _).
    rewrite Nat2Z.id in Hrow, Hv.
    split; [rewrite Hget; congruence |]. split; [rewrite Hpx; f_equal; lia | exact Hpy].
  - intros (x & y & Hin & Hget & Hpx & Hpy).
    destruct (grid_access_inside g x y true Hwf Hin)
      as (row & v & Hrow & Hv & Hget' & _).
    destruct Hin as [Hx Hy].
    exists (Z.to_nat y), row, (Z.to_nat x). split; [exact Hrow |].
    split; [congruence |].
    split; [rewrite Hpx; f_equal; lia | rewrite Hpy; f_equal; lia].
Qed.


(** X18. From the generator to the renderers.  For [n >= 1], a seed that
    normalises and [pixel_size >= 0], the grid [create_grid(n)] returns is
    dumped without error as [2n - 1] lines of [2n + 1] characters, and
    every tile [PygameRenderer(n, pixel_size)] blits for it lies inside
    the window that renderer opens. *)
Theorem create_grid_renders {RS : RandomSource}
  (self : Generator.t) (n pixel_size : Z) (w : world) (z : Z) :
  1 <= n -> 0 <= pixel_size ->
  fst (Generator._generate_seed self (Generator.seed self) w) = inr z ->
  exists g w' out,
    Generator.create_grid self n w = (inr g, w') /\
    AsciiRenderer.to_string g = inr (join_with newline out) /\
    length out = Z.to_nat (2 * n - 1) /\
    Forall (fun line => String.length line = Z.to_nat (2 * n + 1)) out /\
    Forall (fun p =>
              0 <= fst p /\
              fst p + pixel_size
              <= fst (PygameRenderer.size (PygameRenderer.init n pixel_size)) /\
              0 <= snd p /\
              snd p + pixel_size
              <= snd (PygameRenderer.size (PygameRenderer.init n pixel_size)))
           (PygameRenderer.render_blits (PygameRenderer.init n pixel_size) g).
Proof.
  intros Hn Hps Hseed.
  destruct (create_grid_ok self n w z Hn Hseed)
    as (g & w' & Hrun & (Hwf & Hw & Hh & _) & _).
  exists g, w', (map (dump_line g) (xrange (Grid.width g))).
  split; [exact Hrun |]. split.
  { unfold AsciiRenderer.to_string.
    rewrite (lines_inside g _ Hwf) by (intros x Hx; apply xrange_In, Hx).
    reflexivity. }
  split; [rewrite length_map, xrange_length, Hw; reflexivity |]. split.
  - apply Forall_forall. intros line Hline.
    apply list_elem_of_In, in_map_iff in Hline as (x & <- & _).
    unfold dump_line. rewrite length_string_of_list_ascii.
    cbn [length]. rewrite length_app, length_map, xrange_length, Hh.
    cbn [length]. lia.
  - apply Forall_forall. intros [px py] Hp.
    apply list_elem_of_In, (render_blits_get _ g px py Hwf) in Hp
      as (x & y & [Hx Hy] & _ & -> & ->).
    cbn [fst snd PygameRenderer.init PygameRenderer.size PygameRenderer.pixel_size].
    rewrite Hw in Hx. rewrite Hh in Hy. nia.
Qed.

(** ** test_rows *)

Lemma string_length_app (s t : string) :
  String.length (s ++ t) = (String.length s + String.length t)%nat.
Proof.
  induction s as [| c s IH]; [reflexivity |]. cbn. rewrite IH. reflexivity.
Qed.

Lemma str_times_length (k : Z) :
  String.length (str_times " " k) = Z.to_nat k.
Proof.
  unfold str_times. generalize (Z.to_nat k). intros m.
  induction m as [| m IH]; [reflexivity |].
  cbn [repeat Py.join fold_right]. rewrite string_length_app.
  change (fold_right String.append EmptyString ?l) with (Py.join l).
  rewrite IH. reflexivity.
Qed.

Lemma row_body_length (row : list bool) :
  String.length
    (Py.join (map (fun c : bool => if c then "#" else " ")%string row))
  = length row.
Proof.
  induction row as [| c row IH]; [reflexivity |].
  cbn [map Py.join fold_right]. rewrite string_length_app.
  change (fold_right String.append EmptyString ?l) with (Py.join l).
  rewrite IH. destruct c; reflexivity.
Qed.

Lemma test_rows_line_length (n index : Z) (row : list bool) :
  0 <= index <= n - 1 -> Z.of_nat (length row) = 2 * index + 1 ->
  String.length (test_rows_line n index row) = Z.to_nat (2 * n + 1).
Proof.
  intros Hindex Hrow. unfold test_rows_line. cbv zeta.
  rewrite !string_length_app, !str_times_length, row_body_length.
  cbn [String.length]. lia.
Qed.

Lemma test_rows_lines_length (n : Z) (rows : list (list bool)) :
  forall index,
    wedge_rows n index rows ->
    length (test_rows_lines n index rows) = length rows /\
    Forall (fun line => String.length line = Z.to_nat (2 * n + 1))
           (test_rows_lines n index rows).
Proof.
  induction rows as [| row rest IH]; intros index Hrows;
    cbn [test_rows_lines length].
  - split; [reflexivity | constructor].
  - destruct Hrows as (Hindex & Hlen & Hrest).
    destruct (IH (index + 1) Hrest) as [Hcount Hall].
    split; [rewrite Hcount; reflexivity |].
    constructor; [apply test_rows_line_length; assumption | exact Hall].
Qed.

(** X19. [test_rows(n)] prints a centred triangle.  It leaves the world
    as it was; for [n >= 1] it prints [n] lines, all of [2n + 1]
    characters, the row of index [i] between [n - i - 1] blanks on each
    side and two brackets; for [n <= 1] it prints the one line [[#]]. *)
Theorem test_rows_triangle {RS : RandomSource} (n : Z) (w : world) :
  exists lines,
    test_rows n w = (inr lines, w) /\
    length lines = Z.to_nat (Z.max n 1) /\
    (1 <= n ->
     Forall (fun line => String.length line = Z.to_nat (2 * n + 1)) lines) /\
    (n <= 1 -> lines = ["[#]"%string]).
Proof.
  unfold test_rows. cbv zeta. unfold mbind.
  set (g := Generator.Make SeedNone Rules.rule150).
  destruct (generate_rule150_rows g n w eq_refl) as [-> _].
  unfold ret.
  exists (test_rows_lines n 0
            ([true] :: parity_rows (Z.to_nat (n - 1)) [true])).
  split; [reflexivity |].
  destruct (generate_loop_total g (Z.to_nat (n - 1)) [true] w)
    as (rows & w' & Hrun & Hlen & Hgrow).
  rewrite (generate_loop_rule150 g _ _ _ eq_refl) in Hrun.
  injection Hrun as <- <-.
  split; [| split].
  - cbn [test_rows_lines length].
    assert (Hcount : forall rows index,
               length (test_rows_lines n index rows) = length rows).
    { intros rows. induction rows as [| r rows IH]; intros index;
        [reflexivity |]. cbn. rewrite IH. reflexivity. }
    rewrite Hcount, Hlen. lia.
  - intros Hn. apply test_rows_lines_length.
    apply grows_wedge_rows; [lia | lia | reflexivity | exact Hgrow].
  - intros Hn. replace (Z.to_nat (n - 1)) with 0%nat by lia.
    cbn [parity_rows test_rows_lines]. unfold test_rows_line. cbv zeta.
    unfold str_times. replace (Z.to_nat (n - 0 - 1)) with 0%nat by lia.
    reflexivity.
Qed.

(** ** Instances of the further theorems *)

Lemma grid_access_range_witness :
  grid_wf (Grid.init 3 3 None) /\
  Grid.get (Grid.init 3 3 None) (-4) 0 = inl Py.IndexError /\
  Grid.set (Grid.init 3 3 None) (-4) 0 true = inl Py.IndexError.
Proof.
  split; [exact init_3_wf |].
  exact (grid_access_range (Grid.init 3 3 None) (-4) 0 true init_3_wf).
Defined.

Lemma grid_set_then_get_witness :
  grid_wf (Grid.init 3 3 None) /\
  exists g',
    Grid.set (Grid.init 3 3 None) (-1) (-2) true = inr g' /\
    Grid.get g' 2 1 = inr true.
Proof.
  split; [exact init_3_wf |].
  destruct (grid_set_then_get (Grid.init 3 3 None) (-1) (-2) 2 1 true init_3_wf)
    as (g' & Hset & _ & _ & _ & _ & _ & Hget); [cbn; lia .. |].
  exists g'. split; [exact Hset | exact Hget].
Defined.

Lemma grid_set_twice_witness :
  grid_wf (Grid.init 3 3 None) /\
  Py.bind (Grid.set (Grid.init 3 3 None) 0 0 true)
          (fun g1 => Grid.set g1 1 1 false)
  = Py.bind (Grid.set (Grid.init 3 3 None) 1 1 false)
            (fun g2 => Grid.set g2 0 0 true).
Proof.
  split; [exact init_3_wf |].
  apply (proj2 (grid_set_twice (Grid.init 3 3 None) 0 0 1 1 true false init_3_wf)).
  left. vm_compute. discriminate.
Defined.

Lemma generate_seed_outcome_witness :
  clock demo_world <> EmptyString /\
  fst (Generator._generate_seed (demo_parity SeedNone) SeedNone demo_world)
  = inr (concat_decimal
           (map Py.ord (list_ascii_of_string (clock demo_world)))).
Proof.
  split; [discriminate |].
  apply (proj1 (proj2 (generate_seed_outcome (demo_parity SeedNone) SeedNone
                         demo_world))); [reflexivity | discriminate].
Defined.

Lemma create_grid_seed_value_witness :
  fst (Generator._generate_seed (demo_randomized (SeedStr "ab"))
         (SeedStr "ab") demo_world)
  = fst (Generator._generate_seed (demo_randomized (SeedInt 9798))
           (SeedInt 9798) demo_world) /\
  Generator.create_grid (demo_randomized (SeedStr "ab")) 3 demo_world
  = Generator.create_grid (demo_randomized (SeedInt 9798)) 3 demo_world.
Proof.
  split; [reflexivity |].
  apply (proj1 (create_grid_seed_value (RS := lcg) (SeedStr "ab")
                  (SeedInt 9798) Rules.rule150randomized 3 demo_world)).
  reflexivity.
Defined.

Lemma generate_any_count_witness :
  0 <= 1 /\
  exists rows w',
    Generator.generate (demo_randomized SeedNone) 0 demo_world = (inr rows, w') /\
    rows = [[true]].
Proof.
  split; [lia |].
  destruct (generate_any_count (demo_randomized SeedNone) 0 demo_world)
    as (rows & w' & Hrun & _ & _ & Hone).
  exists rows, w'. split; [exact Hrun |]. apply Hone. lia.
Defined.

Lemma generate_prefix_witness :
  1 <= 2 <= 4 /\
  exists rows w' w1,
    Generator.generate (demo_randomized SeedNone) 4 demo_world = (inr rows, w') /\
    Generator.generate (demo_randomized SeedNone) 2 demo_world
    = (inr (take 2 rows), w1).
Proof.
  split; [lia |].
  apply (generate_prefix (demo_randomized SeedNone) 2 4 demo_world). lia.
Defined.

Lemma generate_unbounded_witness :
  (1 <= 3)%nat /\
  exists rows w' row,
    pull (demo_randomized SeedNone) 3 (GenStart None) demo_world
    = (inr (rows, GenLoop row None), w') /\
    length rows = 3%nat.
Proof.
  split; [lia |].
  destruct (generate_unbounded (demo_randomized SeedNone) 3 demo_world)
    as (rows & w' & row & _ & Hpull & Hlen & _); [lia |].
  exists rows, w', row. split; [exact Hpull | exact Hlen].
Defined.

Lemma generate_exhausts_witness :
  exists rows w',
    Generator.generate (demo_randomized SeedNone) 2 demo_world = (inr rows, w') /\
    ((length rows < 5)%nat ->
     pull (demo_randomized SeedNone) 5 (GenStart (Some 2)) demo_world
     = (inr (rows, GenDone), w')).
Proof.
  destruct (generate_exhausts (demo_randomized SeedNone) 2 demo_world)
    as (rows & w' & Hrun & Hpull).
  exists rows, w'. split; [exact Hrun | exact (Hpull 5%nat)].
Defined.

Lemma calculate_row_rule150_witness :
  Generator.rule (demo_parity SeedNone) = Rules.rule150 /\
  exists next,
    Generator._calculate_row (demo_parity SeedNone) [true; false; true]
      demo_world = (inr next, demo_world) /\
    length next = 5%nat.
Proof.
  split; [reflexivity |].
  destruct (calculate_row_rule150 (demo_parity SeedNone) [true; false; true]
              demo_world eq_refl) as (next & Hrun & Hlen & _).
  exists next. split; [exact Hrun | exact Hlen].
Defined.

Lemma generate_rule150_mirrored_witness :
  Generator.rule (demo_parity SeedNone) = Rules.rule150 /\
  exists rows,
    Generator.generate (demo_parity SeedNone) 4 demo_world
    = (inr rows, demo_world) /\
    Forall (fun row => rev row = row /\ head row = Some true /\
                       List.last row false = true) rows.
Proof.
  split; [reflexivity |].
  exact (generate_rule150_mirrored (demo_parity SeedNone) 4 demo_world eq_refl).
Defined.

Lemma create_grid_content_witness :
  1 <= 3 /\
  fst (Generator._generate_seed (demo_randomized (SeedInt 42)) (SeedInt 42)
         demo_world) = inr 42 /\
  exists g w',
    Generator.create_grid (demo_randomized (SeedInt 42)) 3 demo_world
    = (inr g, w') /\
    Grid.get g 2 2 = inr true.
Proof.
  split; [lia |]. split; [reflexivity |].
  destruct (create_grid_content (demo_randomized (SeedInt 42)) 3 demo_world 42)
    as (rows & g & w' & _ & Hrun & Hcentre & _); [lia | reflexivity |].
  exists g, w'. split; [exact Hrun | exact Hcentre].
Defined.

Lemma create_grid_rule150_symmetric_witness :
  Generator.rule (demo_parity (SeedInt 42)) = Rules.rule150 /\ 1 <= 3 /\
  fst (Generator._generate_seed (demo_parity (SeedInt 42)) (SeedInt 42)
         demo_world) = inr 42 /\
  exists g w',
    Generator.create_grid (demo_parity (SeedInt 42)) 3 demo_world = (inr g, w') /\
    Grid.get g (3 - 1 + 1) (3 - 1 - 2) = Grid.get g (3 - 1 + 1) (3 - 1 + 2).
Proof.
  split; [reflexivity |]. split; [lia |]. split; [reflexivity |].
  destruct (create_grid_rule150_symmetric (demo_parity (SeedInt 42)) 3
              demo_world 42 eq_refl) as (g & Hrun & Hsym);
    [lia | reflexivity |].
  eexists g, _. split; [exact Hrun |].
  apply (Hsym 1 2); lia.
Defined.

Lemma create_grid_world_witness :
  fst (Generator._generate_seed (demo_randomized (SeedInt 42)) (SeedInt 42)
         demo_world) = inr 42 /\
  (0 <= 0 \/ Generator.rule (demo_randomized (SeedInt 42)) = Rules.rule150) /\
  rand (snd (Generator.create_grid (demo_randomized (SeedInt 42)) 0 demo_world))
  = @rng_seed lcg 42.
Proof.
  split; [reflexivity |]. split; [left; lia |].
  apply (proj2 (proj2 (create_grid_world (demo_randomized (SeedInt 42)) 0
                         demo_world)) 42); [reflexivity | left; lia].
Defined.

Lemma to_string_dump_witness :
  grid_wf (Grid.init 3 3 None) /\
  AsciiRenderer.to_string (Grid.init 3 3 None)
  = inr (join_with newline
           (map (dump_line (Grid.init 3 3 None)) (xrange 3))).
Proof.
  split; [exact init_3_wf |].
  exact (proj1 (to_string_dump (Grid.init 3 3 None) init_3_wf)).
Defined.


Lemma create_grid_renders_witness :
  1 <= 3 /\ 0 <= 2 /\
  fst (Generator._generate_seed (demo_randomized (SeedInt 42)) (SeedInt 42)
         demo_world) = inr 42 /\
  exists g w' out,
    Generator.create_grid (demo_randomized (SeedInt 42)) 3 demo_world
    = (inr g, w') /\
    AsciiRenderer.to_string g = inr (join_with newline out) /\
    length out = 5%nat.
Proof.
  split; [lia |]. split; [lia |]. split; [reflexivity |].
  destruct (create_grid_renders (demo_randomized (SeedInt 42)) 3 2 demo_world 42)
    as (g & w' & out & Hrun & Hdump & Hlen & _); [lia | lia | reflexivity |].
  exists g, w', out. split; [exact Hrun |]. split; [exact Hdump | exact Hlen].
Defined.

Lemma test_rows_triangle_witness :
  1 <= 3 /\
  exists lines,
    @test_rows lcg 3 demo_world = (inr lines, demo_world) /\
    Forall (fun line => String.length line = 7%nat) lines.
Proof.
  split; [lia |].
  destruct (test_rows_triangle (RS := lcg) 3 demo_world)
    as (lines & Hrun & _ & Hall & _).
  exists lines. split; [exact Hrun |]. apply Hall. lia.
Defined.
